(** * dtbocfg: Device Tree Overlay Configuration File System

    A shallow embedding of [drivers/of/dtbocfg.c] and the properties of its
    overlay item life cycle.

    Every C function of the driver is a definition of the same name.  The
    functions act on one [struct dtbocfg_overlay_item] through a pointer and
    call into the kernel (device tree unflattening, overlays, the slab
    allocator, configfs).  The embedding therefore runs in a state monad
    whose state holds
    - the kernel, an abstract state with the called functions as an
      interface ([Kernel]),
    - the sequence of kernel calls made so far ([trace]),
    - the object the function works on ([obj]).

    Log output ([pr_err], [pr_debug], [pr_info]) is left out: it reads and
    changes nothing of the model. *)

From Stdlib Require Import ZArith List Lia Bool String.
From Stdlib Require Import Strings.Byte.
Import ListNotations.
Local Open Scope Z_scope.

(** ** C integers *)

Module C.

(** [int] is 32 bits wide, [size_t], [ssize_t] and [unsigned long] 64. *)
Definition INT_MAX : Z := 2 ^ 31 - 1.

(** Conversion to a signed integer of [w] bits. *)
Definition wrap_signed (w x : Z) : Z :=
  (x + 2 ^ (w - 1)) mod 2 ^ w - 2 ^ (w - 1).

(** [size_t] to [int], as in [overlay->dtbo_size = count]. *)
Definition to_int (x : Z) : Z := wrap_signed 32 x.

(** [size_t] to [ssize_t], as in [return count]. *)
Definition to_ssize_t (x : Z) : Z := wrap_signed 64 x.

(** [int] to [unsigned long], as in [overlay->dtbo_size > PAGE_SIZE]. *)
Definition to_ulong (x : Z) : Z := x mod 2 ^ 64.

(** Error numbers of [errno-base.h]. *)
Definition EPERM : Z := 1.
Definition ENOMEM : Z := 12.
Definition EINVAL : Z := 22.
Definition ERANGE : Z := 34.

End C.
Import C.

(** ** Data *)

(** The contents of a buffer. *)
Definition blob : Type := list byte.

(** A [struct device_node *] that is not [NULL]: the handle of an
    unflattened tree. *)
Definition device_node : Type := Z.

(** [struct config_item], of which the driver sets the name only. *)
Record config_item : Type := mk_config_item {
  ci_name : string
}.

(** [struct dtbocfg_overlay_item].  A pointer field is [None] when it is
    [NULL]; [dtbo] otherwise holds the bytes it points to. *)
Record dtbocfg_overlay_item : Type := mk_overlay {
  item : config_item;
  node : option device_node;
  id : Z;
  dtbo : option blob;
  dtbo_size : Z
}.

Definition set_node (n : option device_node) (o : dtbocfg_overlay_item) :
  dtbocfg_overlay_item :=
  mk_overlay (item o) n (id o) (dtbo o) (dtbo_size o).

Definition set_id (i : Z) (o : dtbocfg_overlay_item) : dtbocfg_overlay_item :=
  mk_overlay (item o) (node o) i (dtbo o) (dtbo_size o).

Definition set_dtbo (d : option blob) (o : dtbocfg_overlay_item) :
  dtbocfg_overlay_item :=
  mk_overlay (item o) (node o) (id o) d (dtbo_size o).

Definition set_dtbo_size (n : Z) (o : dtbocfg_overlay_item) :
  dtbocfg_overlay_item :=
  mk_overlay (item o) (node o) (id o) (dtbo o) n.

(** ** Kernel calls *)

(** What [kfree] is called on. *)
Inductive memory : Type :=
| mem_dtbo (d : option blob)
| mem_overlay.

(** One call into the kernel, with the arguments and the result that the
    driver sees. *)
Inductive event : Type :=
| ev_unflatten (b : option blob) (n : option device_node)
| ev_set_flag (n : device_node)
| ev_resolve_phandles (n : device_node) (r : Z)
| ev_overlay_create (n : device_node) (r : Z)
| ev_overlay_destroy (i : Z)
| ev_kmalloc (size : Z) (ok : bool)
| ev_kfree (m : memory)
| ev_group_init (name : string)
| ev_item_init (name : string)
| ev_register_subsystem (r : Z)
| ev_register_group (r : Z)
| ev_unregister_subsystem
| ev_unregister_group.

(** The kernel as the driver uses it.  [K] is the state of the kernel; a
    function takes it and gives the next state beside its result.

    - [of_fdt_unflatten_tree k b n]: [b] is the blob pointer passed, [n] the
      value of [overlay->node] before the call (the function writes its
      result through [&overlay->node]); the result is its value after.
    - [of_resolve_phandles] and [of_overlay_create] return an [int].
    - [kmalloc k size] tells whether the allocation succeeds.
    - [kstrtoul buf base] returns the status and the parsed value.
    - [config_group_init k name] stands for both [config_group_init] and
      [config_group_init_type_name], which set up a static group.
    - [config_item_init_type_name k name] sets up the [struct config_item]
      of a new item under [name].
    - [sizeof_overlay] is [sizeof(struct dtbocfg_overlay_item)] and
      [PAGE_SIZE] the page size of the platform. *)
Class Kernel (K : Type) : Type := {
  of_fdt_unflatten_tree :
    K -> option blob -> option device_node -> K * option device_node;
  of_node_set_flag : K -> device_node -> K;
  of_resolve_phandles : K -> device_node -> K * Z;
  of_overlay_create : K -> device_node -> K * Z;
  of_overlay_destroy : K -> Z -> K;
  kmalloc : K -> Z -> K * bool;
  kfree : K -> memory -> K;
  kstrtoul : list byte -> Z -> Z * Z;
  config_group_init : K -> string -> K;
  config_item_init_type_name : K -> string -> K;
  configfs_register_subsystem : K -> K * Z;
  configfs_register_group : K -> K * Z;
  configfs_unregister_subsystem : K -> K;
  configfs_unregister_group : K -> K;
  sizeof_overlay : Z;
  PAGE_SIZE : Z
}.

(** ** The monad *)

Record state (K O : Type) : Type := mk_state {
  kern : K;
  trace : list event;
  obj : O
}.
Arguments mk_state {K O} _ _ _.
Arguments kern {K O} _.
Arguments trace {K O} _.
Arguments obj {K O} _.

Definition M (K O A : Type) : Type := state K O -> A * state K O.

Definition ret {K O A : Type} (a : A) : M K O A := fun s => (a, s).

Definition bind {K O A B : Type} (m : M K O A) (f : A -> M K O B) : M K O B :=
  fun s => f (fst (m s)) (snd (m s)).

Declare Scope monad_scope.
Delimit Scope monad_scope with M.
Notation "x <- m ;; k" := (bind m (fun x => k))
  (at level 61, m at next level, right associativity) : monad_scope.
Notation "m ;; k" := (bind m (fun _ => k))
  (at level 61, right associativity) : monad_scope.
Local Open Scope monad_scope.

(** The object worked on. *)
Definition get {K O : Type} : M K O O := fun s => (obj s, s).

Definition modify {K O : Type} (f : O -> O) : M K O unit :=
  fun s => (tt, mk_state (kern s) (trace s) (f (obj s))).

(** A kernel call with a result, and one without. *)
Definition call {K O A : Type} (f : K -> K * A) (e : A -> event) : M K O A :=
  fun s =>
    (snd (f (kern s)),
     mk_state (fst (f (kern s))) (trace s ++ [e (snd (f (kern s)))]) (obj s)).

Definition call_ {K O : Type} (f : K -> K) (e : event) : M K O unit :=
  fun s => (tt, mk_state (f (kern s)) (trace s ++ [e]) (obj s)).

(** Result and final state of a run. *)
Definition result {K O A : Type} (m : M K O A) (s : state K O) : A := fst (m s).
Definition after {K O A : Type} (m : M K O A) (s : state K O) : state K O :=
  snd (m s).

(** ** The driver *)

Section Driver.

Context {K : Type} {kernel : Kernel K}.

(** Modelled from the spec: [kmemdup] is kernel code outside the driver.  As
    section 4.1 has it for [replace], it allocates a new owned copy of the
    data and fails, with [NULL], when the allocation fails. *)
Definition kmemdup {O : Type} (src : list byte) (len : Z) : M K O (option blob) :=
  ok <- call (fun k => kmalloc k len) (ev_kmalloc len) ;;
  ret (if ok : bool then Some (firstn (Z.to_nat len) src) else None).

(** [memcpy(dst, src, n)]: the first [n] bytes of [dst] become those of
    [src]. *)
Definition memcpy (dst src : list byte) (n : Z) : list byte :=
  firstn (Z.to_nat n) src ++ skipn (Z.to_nat n) dst.

(** [sprintf(page, "%d\n", b ? 1 : 0)]: the text written. *)
Definition sprintf_flag (b : bool) : list byte :=
  [if b then x31 else x30; x0a].

(** [dtbocfg_overlay_item_create]: create the device tree overlay.  Returns
    0 or an error status. *)
Definition dtbocfg_overlay_item_create : M K dtbocfg_overlay_item Z :=
  overlay <- get ;;
  n <- call (fun k => of_fdt_unflatten_tree k (dtbo overlay) (node overlay))
            (ev_unflatten (dtbo overlay)) ;;
  modify (set_node n) ;;
  match n with
  | None => ret (- EINVAL)
  | Some nd =>
      call_ (fun k => of_node_set_flag k nd) (ev_set_flag nd) ;;
      ret_val <- call (fun k => of_resolve_phandles k nd)
                      (ev_resolve_phandles nd) ;;
      if negb (ret_val =? 0) then ret ret_val
      else
        (ret_val <- call (fun k => of_overlay_create k nd)
                         (ev_overlay_create nd) ;;
         if ret_val <? 0 then ret ret_val
         else (modify (set_id ret_val) ;; ret 0))
  end.

(** [dtbocfg_overlay_item_release]: release the device tree overlay. *)
Definition dtbocfg_overlay_item_release : M K dtbocfg_overlay_item unit :=
  overlay <- get ;;
  if 0 <=? id overlay then
    (call_ (fun k => of_overlay_destroy k (id overlay))
           (ev_overlay_destroy (id overlay)) ;;
     modify (set_id (-1)))
  else ret tt.

(** [dtbocfg_overlay_item_status_store]: set the status attribute.  Returns
    the stored size or an error status. *)
Definition dtbocfg_overlay_item_status_store (buf : list byte) (count : Z) :
  M K dtbocfg_overlay_item Z :=
  let status := fst (kstrtoul buf 10) in
  let value := snd (kstrtoul buf 10) in
  if negb (0 =? status) then ret (- EPERM)
  else
    ((if value =? 0 then
        (overlay <- get ;;
         if 0 <=? id overlay then dtbocfg_overlay_item_release else ret tt)
      else
        (overlay <- get ;;
         if id overlay <? 0 then (dtbocfg_overlay_item_create ;; ret tt)
         else ret tt)) ;;
     ret (to_ssize_t count)).

(** [dtbocfg_overlay_item_status_show]: show the status attribute.  Returns
    the string size, with the text written to the page. *)
Definition dtbocfg_overlay_item_status_show :
  M K dtbocfg_overlay_item (Z * list byte) :=
  overlay <- get ;;
  ret (Z.of_nat (List.length (sprintf_flag (0 <=? id overlay))),
       sprintf_flag (0 <=? id overlay)).

(** The part of [dtbocfg_overlay_item_dtbo_store] from [kmemdup] on. *)
Definition dtbo_store_copy (buf : list byte) (count : Z) :
  M K dtbocfg_overlay_item Z :=
  p <- kmemdup buf count ;;
  modify (set_dtbo p) ;;
  match p with
  | None => modify (set_dtbo_size 0) ;; ret (- ENOMEM)
  | Some _ => modify (set_dtbo_size (to_int count)) ;; ret (to_ssize_t count)
  end.

(** [dtbocfg_overlay_item_dtbo_store]: store the device tree blob.  Returns
    the stored size or an error status. *)
Definition dtbocfg_overlay_item_dtbo_store (buf : list byte) (count : Z) :
  M K dtbocfg_overlay_item Z :=
  overlay <- get ;;
  if 0 <? dtbo_size overlay then
    if 0 <=? id overlay then ret (- EPERM)
    else
      (call_ (fun k => kfree k (mem_dtbo (dtbo overlay)))
             (ev_kfree (mem_dtbo (dtbo overlay))) ;;
       modify (set_dtbo None) ;;
       modify (set_dtbo_size 0) ;;
       dtbo_store_copy buf count)
  else dtbo_store_copy buf count.

(** [dtbocfg_overlay_item_dtbo_show]: read the device tree blob.  [buf] is
    the page to fill or [NULL]; returns the read size and the page. *)
Definition dtbocfg_overlay_item_dtbo_show (buf : option (list byte)) :
  M K dtbocfg_overlay_item (Z * option (list byte)) :=
  overlay <- get ;;
  match dtbo overlay with
  | None => ret (0, buf)
  | Some d =>
      if PAGE_SIZE <? to_ulong (dtbo_size overlay) then ret (- EINVAL, buf)
      else
        ret (dtbo_size overlay,
             option_map
               (fun page => memcpy page d (to_ulong (dtbo_size overlay))) buf)
  end.

(** [dtbocfg_overlay_release]: release the device tree overlay item, the
    [release] operation of the item type. *)
Definition dtbocfg_overlay_release : M K dtbocfg_overlay_item unit :=
  dtbocfg_overlay_item_release ;;
  overlay <- get ;;
  (match dtbo overlay with
   | Some _ =>
       call_ (fun k => kfree k (mem_dtbo (dtbo overlay)))
             (ev_kfree (mem_dtbo (dtbo overlay))) ;;
       modify (set_dtbo None) ;;
       modify (set_dtbo_size 0)
   | None => ret tt
   end) ;;
  call_ (fun k => kfree k mem_overlay) (ev_kfree mem_overlay).

(** [dtbocfg_overlay_group_make_item]: make an overlay item of the group.
    Returns the item or [ERR_PTR] of an error status.  The item is
    allocated, its id, blob and size are set, and
    [config_item_init_type_name] is called on its [struct config_item],
    which gives the item its name. *)
Definition dtbocfg_overlay_group_make_item (name : string) :
  M K unit (Z + dtbocfg_overlay_item) :=
  ok <- call (fun k => kmalloc k sizeof_overlay) (ev_kmalloc sizeof_overlay) ;;
  if ok : bool then
    (call_ (fun k => config_item_init_type_name k name) (ev_item_init name) ;;
     ret (inr (mk_overlay (mk_config_item name) None (-1) None 0)))
  else ret (inl (- ENOMEM)).

(** Modelled from the spec: [config_item_put] is configfs code outside the
    driver.  As section 4.3 has it for [drop], the group holds the only
    reference to the item, so that putting it destroys the item through the
    [release] operation of its type, [dtbocfg_overlay_release]. *)
Definition config_item_put : M K dtbocfg_overlay_item unit :=
  dtbocfg_overlay_release.

(** [dtbocfg_overlay_group_drop_item]: drop an overlay item of the group. *)
Definition dtbocfg_overlay_group_drop_item : M K dtbocfg_overlay_item unit :=
  config_item_put.

(** [dtbocfg_module_init]. *)
Definition dtbocfg_module_init : M K unit Z :=
  call_ (fun k => config_group_init k "device-tree")
        (ev_group_init "device-tree") ;;
  call_ (fun k => config_group_init k "overlays") (ev_group_init "overlays") ;;
  retval <- call configfs_register_subsystem ev_register_subsystem ;;
  if negb (retval =? 0) then ret retval
  else
    (retval <- call configfs_register_group ev_register_group ;;
     if negb (retval =? 0) then
       (call_ configfs_unregister_subsystem ev_unregister_subsystem ;;
        ret retval)
     else ret 0).

(** [dtbocfg_module_exit]. *)
Definition dtbocfg_module_exit : M K unit unit :=
  call_ configfs_unregister_group ev_unregister_group ;;
  call_ configfs_unregister_subsystem ev_unregister_subsystem.

End Driver.

(** ** Life of an item *)

(** An operation that configfs issues on an item between its making and its
    dropping: a write or a read of one of its two attributes. *)
Inductive op : Type :=
| op_status_store (buf : list byte) (count : Z)
| op_status_show
| op_dtbo_store (buf : list byte) (count : Z)
| op_dtbo_show (buf : option (list byte)).

Section Life.

Context {K : Type} {kernel : Kernel K}.

Definition run_op (o : op) : M K dtbocfg_overlay_item unit :=
  match o with
  | op_status_store buf count =>
      dtbocfg_overlay_item_status_store buf count ;; ret tt
  | op_status_show => dtbocfg_overlay_item_status_show ;; ret tt
  | op_dtbo_store buf count =>
      dtbocfg_overlay_item_dtbo_store buf count ;; ret tt
  | op_dtbo_show buf => dtbocfg_overlay_item_dtbo_show buf ;; ret tt
  end.

Fixpoint run_ops (l : list op) : M K dtbocfg_overlay_item unit :=
  match l with
  | [] => ret tt
  | o :: l' => run_op o ;; run_ops l'
  end.

(** Runs [m] on the object [o], giving back the object as [m] leaves it. *)
Definition with_obj {O A : Type} (o : O) (m : M K O A) : M K unit (A * O) :=
  fun s =>
    ((fst (m (mk_state (kern s) (trace s) o)),
      obj (snd (m (mk_state (kern s) (trace s) o)))),
     mk_state (kern (snd (m (mk_state (kern s) (trace s) o))))
              (trace (snd (m (mk_state (kern s) (trace s) o)))) tt).

(** The state of an item just made under [name] in the kernel [k], with the
    trace of its making, when it could be made. *)
Definition made (name : string) (k : K) :
  option (state K dtbocfg_overlay_item) :=
  let r := dtbocfg_overlay_group_make_item name (mk_state k [] tt) in
  match fst r with
  | inr overlay => Some (mk_state (kern (snd r)) (trace (snd r)) overlay)
  | inl _ => None
  end.

(** An operation as configfs issues it: a write of the blob passes a buffer
    and its length, which fits an [int]. *)
Definition well_formed_op (o : op) : Prop :=
  match o with
  | op_dtbo_store buf count =>
      count = Z.of_nat (List.length buf) /\ count <= INT_MAX
  | _ => True
  end.

(** A write of the status that parses and is not zero. *)
Definition enables (o : op) : Prop :=
  match o with
  | op_status_store buf _ =>
      fst (kstrtoul buf 10) = 0 /\ snd (kstrtoul buf 10) <> 0
  | _ => False
  end.

(** The whole life of one item: made under [name], operated on, dropped.
    Returns [false] when the item could not be made. *)
Definition life (name : string) (l : list op) : M K unit bool :=
  r <- dtbocfg_overlay_group_make_item name ;;
  match r with
  | inl _ => ret false
  | inr overlay =>
      with_obj overlay (run_ops l ;; dtbocfg_overlay_group_drop_item) ;;
      ret true
  end.

End Life.

(** ** Reading a trace *)

(** The ids that successful calls of [of_overlay_create] returned, and the
    ids that [of_overlay_destroy] was called on, in order. *)
Definition created_ids (tr : list event) : list Z :=
  flat_map
    (fun e =>
       match e with
       | ev_overlay_create _ r => if r <? 0 then [] else [r]
       | _ => []
       end) tr.

Definition released_ids (tr : list event) : list Z :=
  flat_map
    (fun e => match e with ev_overlay_destroy i => [i] | _ => [] end) tr.

(** The calls that take part in applying a blob. *)
Definition is_apply_event (e : event) : bool :=
  match e with
  | ev_unflatten _ _ | ev_set_flag _ | ev_resolve_phandles _ _
  | ev_overlay_create _ _ => true
  | _ => false
  end.

(** The apply and release protocol of one item.  [held] is the id of the
    overlay that is applied and not yet released.  A successful
    [of_overlay_create] is allowed only when nothing is held, and
    [of_overlay_destroy] only on the id that is held.  The result is what is
    held after the trace, or [None] when the trace breaks the protocol. *)
Fixpoint protocol (held : option Z) (tr : list event) : option (option Z) :=
  match tr with
  | [] => Some held
  | ev_overlay_create _ r :: tr' =>
      if r <? 0 then protocol held tr'
      else match held with
           | None => protocol (Some r) tr'
           | Some _ => None
           end
  | ev_overlay_destroy i :: tr' =>
      match held with
      | Some j => if i =? j then protocol None tr' else None
      | None => None
      end
  | _ :: tr' => protocol held tr'
  end.

(** The id an item holds. *)
Definition held_id (o : dtbocfg_overlay_item) : option Z :=
  if 0 <=? id o then Some (id o) else None.

Definition held_list (held : option Z) : list Z :=
  match held with
  | Some i => [i]
  | None => []
  end.

(** A run keeps the protocol when what it adds to the trace takes the id
    that the item held before to the id it holds after. *)
Definition keeps_protocol {K A : Type} (m : M K dtbocfg_overlay_item A)
  (s : state K dtbocfg_overlay_item) : Prop :=
  exists evs : list event,
    trace (after m s) = trace s ++ evs /\
    protocol (held_id (obj s)) evs = Some (held_id (obj (after m s))).

(** What is registered with configfs after a trace, from what was before:
    the subsystem and the group. *)
Definition registered_step (r : bool * bool) (e : event) : bool * bool :=
  match e with
  | ev_register_subsystem v => if v =? 0 then (true, snd r) else r
  | ev_register_group v => if v =? 0 then (fst r, true) else r
  | ev_unregister_subsystem => (false, snd r)
  | ev_unregister_group => (fst r, false)
  | _ => r
  end.

Definition registered (r : bool * bool) (tr : list event) : bool * bool :=
  fold_left registered_step tr r.

(** ** States of an item *)

(** The invariant of the blob buffer: the recorded size is the length of the
    stored bytes, 0 when there are none, and fits an [int]. *)
Definition blob_length (o : dtbocfg_overlay_item) : Z :=
  match dtbo o with
  | Some d => Z.of_nat (List.length d)
  | None => 0
  end.

Definition blob_inv (o : dtbocfg_overlay_item) : Prop :=
  dtbo_size o = blob_length o /\ blob_length o <= INT_MAX.

(** The bytes of the blob, none when there is no blob. *)
Definition blob_bytes (o : dtbocfg_overlay_item) : list byte :=
  match dtbo o with
  | Some d => d
  | None => []
  end.

(** The three states of section 4.2. *)
Definition Empty (o : dtbocfg_overlay_item) : Prop :=
  id o < 0 /\ dtbo o = None /\ dtbo_size o = 0.

Definition Loaded (o : dtbocfg_overlay_item) : Prop :=
  id o < 0 /\ 0 < dtbo_size o.

Definition Applied (o : dtbocfg_overlay_item) : Prop :=
  0 <= id o.

(** What [status()] reports: whether the status attribute reads as 1. *)
Definition status_of (page : list byte) : bool :=
  match page with
  | x31 :: _ => true
  | _ => false
  end.

(** What a read delivers: the first [n] bytes of the page filled. *)
Definition delivered (r : Z * option (list byte)) : list byte :=
  match snd r with
  | Some page => firstn (Z.to_nat (fst r)) page
  | None => []
  end.

(** ** A kernel to run the driver on *)

Module Sim.

(** A small kernel: overlays get consecutive ids, the outcomes of the coming
    allocations and of the registrations are given. *)
Record t : Type := mk {
  next_id : Z;
  allocs : list bool;
  resolve_ret : Z;
  subsys_ret : Z;
  group_ret : Z
}.

(** Unflattening gives a tree for a blob that starts with the first byte of
    the FDT magic.  Otherwise it returns early and leaves the pointer it was
    to write through as it was. *)
Definition unflatten (k : t) (b : option blob) (n : option device_node) :
  t * option device_node :=
  match b with
  | Some (xd0 :: _) => (k, Some 1)
  | _ => (k, n)
  end.

Definition overlay_create (k : t) (n : device_node) : t * Z :=
  (mk (next_id k + 1) (allocs k) (resolve_ret k) (subsys_ret k) (group_ret k),
   next_id k).

Definition alloc (k : t) (size : Z) : t * bool :=
  match allocs k with
  | [] => (k, true)
  | ok :: rest =>
      (mk (next_id k) rest (resolve_ret k) (subsys_ret k) (group_ret k), ok)
  end.

(** A decimal digit below [base]. *)
Definition digit (base : Z) (b : byte) : option Z :=
  let n := Z.of_N (Byte.to_N b) in
  if (48 <=? n) && (n <? 48 + base) && (n <=? 57) then Some (n - 48) else None.

(** The leading digits of [s]: their value, their number and the rest. *)
Fixpoint parse_integer (base : Z) (s : list byte) (acc : Z) (n : nat) :
  Z * nat * list byte :=
  match s with
  | b :: s' =>
      match digit base b with
      | Some d => parse_integer base s' (acc * base + d) (S n)
      | None => (acc, n, s)
      end
  | [] => (acc, n, s)
  end.

(** The C string in a buffer: its bytes before the first NUL. *)
Fixpoint c_string (buf : list byte) : list byte :=
  match buf with
  | [] => []
  | x00 :: _ => []
  | b :: buf' => b :: c_string buf'
  end.

(** [kstrtoul] for a base up to 10, on the C string in the buffer: an
    optional plus sign, digits, an optional newline. *)
Definition strtoul (buf : list byte) (base : Z) : Z * Z :=
  let s := match c_string buf with x2b :: s' => s' | str => str end in
  let p := parse_integer base s 0 0 in
  if 2 ^ 64 <=? fst (fst p) then (- ERANGE, 0)
  else if Nat.eqb (snd (fst p)) 0 then (- EINVAL, 0)
  else match snd p with
       | [] | [x0a] => (0, fst (fst p))
       | _ => (- EINVAL, 0)
       end.

#[global] Instance kernel : Kernel t := {|
  of_fdt_unflatten_tree := unflatten;
  of_node_set_flag := fun k _ => k;
  of_resolve_phandles := fun k _ => (k, resolve_ret k);
  of_overlay_create := overlay_create;
  of_overlay_destroy := fun k _ => k;
  kmalloc := alloc;
  kfree := fun k _ => k;
  kstrtoul := strtoul;
  config_group_init := fun k _ => k;
  config_item_init_type_name := fun k _ => k;
  configfs_register_subsystem := fun k => (k, subsys_ret k);
  configfs_register_group := fun k => (k, group_ret k);
  configfs_unregister_subsystem := fun k => k;
  configfs_unregister_group := fun k => k;
  sizeof_overlay := 128;
  PAGE_SIZE := 4096
|}.

(** The kernel at start: ids from 0, all goes well. *)
Definition boot : t := mk 0 [] 0 0 0.

(** An item in [boot] with an empty trace. *)
Definition on (o : dtbocfg_overlay_item) : state t dtbocfg_overlay_item :=
  mk_state boot [] o.

(** The item that [dtbocfg_overlay_group_make_item] makes. *)
Definition fresh : dtbocfg_overlay_item :=
  mk_overlay (mk_config_item "fpga0") None (-1) None 0.

(** The start of a device tree blob. *)
Definition fdt : list byte := [xd0; x0d; xfe; xed].

(** The item with that blob stored, and with it applied under the id 0. *)
Definition loaded : dtbocfg_overlay_item :=
  mk_overlay (mk_config_item "fpga0") None (-1) (Some fdt) 4.

Definition applied : dtbocfg_overlay_item :=
  mk_overlay (mk_config_item "fpga0") (Some 1) 0 (Some fdt) 4.

(** An item that holds an id and no blob. *)
Definition applied_without_blob : dtbocfg_overlay_item :=
  mk_overlay (mk_config_item "fpga0") (Some 1) 1 None 0.

(** A kernel in which phandles do not resolve, and one in which the group
    does not register. *)
Definition unresolved : t := mk 0 [] (- EINVAL) 0 0.

Definition no_group : t := mk 0 [] 0 0 (- ENOMEM).

(** A kernel that is short of memory at its third allocation, and a run in
    which that allocation is the one of a second blob: the blob is stored
    and applied, released, and then stored again, which fails and leaves no
    blob; the status is then written once more. *)
Definition low_memory : t := mk 0 [true; true; false] 0 0 0.

Definition reapply : list op :=
  [op_dtbo_store fdt 4; op_status_store [x31] 1; op_status_store [x30] 1;
   op_dtbo_store fdt 4; op_status_store [x31] 1].

End Sim.

(** * Properties *)

(** ** C integers *)

Lemma to_int_small (x : Z) : 0 <= x <= INT_MAX -> to_int x = x.
Proof.
  unfold to_int, wrap_signed, INT_MAX. intros Hx.
  rewrite Z.mod_small; lia.
Qed.

Lemma to_ulong_small (x : Z) : 0 <= x <= INT_MAX -> to_ulong x = x.
Proof.
  unfold to_ulong, INT_MAX. intros Hx.
  rewrite Z.mod_small; lia.
Qed.

Lemma to_ssize_t_small (x : Z) : 0 <= x <= INT_MAX -> to_ssize_t x = x.
Proof.
  unfold to_ssize_t, wrap_signed, INT_MAX. intros Hx.
  rewrite Z.mod_small; lia.
Qed.

(** A size below 2^63 is returned as it is. *)
Lemma to_ssize_t_size (x : Z) : 0 <= x < 2 ^ 63 -> to_ssize_t x = x.
Proof.
  unfold to_ssize_t, wrap_signed. intros Hx.
  rewrite Z.mod_small; lia.
Qed.

(** ** Buffers *)

Lemma firstn_length_all (b : list byte) :
  firstn (Z.to_nat (Z.of_nat (List.length b))) b = b.
Proof. rewrite Nat2Z.id. apply firstn_all. Qed.

Lemma delivered_memcpy (page d : list byte) :
  delivered
    (Z.of_nat (List.length d),
     Some (memcpy page d (Z.of_nat (List.length d)))) = d.
Proof.
  unfold delivered, memcpy. simpl. rewrite Nat2Z.id, firstn_all.
  rewrite firstn_app, firstn_all, Nat.sub_diag. simpl. apply app_nil_r.
Qed.

(** Unfolds the monad of a run down to pairs and projections. *)
Ltac run :=
  unfold result, after, bind, ret, get, modify, call, call_ in *;
  cbn [fst snd kern trace obj negb] in *.

Ltac unfold_store :=
  unfold dtbocfg_overlay_item_dtbo_store, dtbo_store_copy, kmemdup.

Section Properties.

Context {K : Type} {kernel : Kernel K}.

(** The page size is a positive [unsigned long] that fits an [int], as on
    every platform of the kernel. *)
Hypothesis PAGE_SIZE_range : 0 < PAGE_SIZE <= INT_MAX.

Implicit Types (s : state K dtbocfg_overlay_item) (buf : list byte).

(** ** Reads *)

Lemma dtbo_show_after (page : option (list byte)) s :
  after (dtbocfg_overlay_item_dtbo_show page) s = s.
Proof.
  unfold dtbocfg_overlay_item_dtbo_show. run.
  destruct (dtbo (obj s)); [destruct (_ <? _)|]; reflexivity.
Qed.

Lemma status_show_after s : after dtbocfg_overlay_item_status_show s = s.
Proof. reflexivity. Qed.

(** The read of an item whose buffer is well formed. *)
Lemma dtbo_show_result (page : option (list byte)) s :
  blob_inv (obj s) ->
  result (dtbocfg_overlay_item_dtbo_show page) s =
  match dtbo (obj s) with
  | None => (0, page)
  | Some d =>
      if PAGE_SIZE <? Z.of_nat (List.length d) then (- EINVAL, page)
      else (Z.of_nat (List.length d),
            option_map
              (fun p => memcpy p d (Z.of_nat (List.length d))) page)
  end.
Proof.
  unfold blob_inv, blob_length, dtbocfg_overlay_item_dtbo_show. run.
  destruct (dtbo (obj s)) as [d|]; [|reflexivity].
  intros [Hsize Hmax]. rewrite Hsize, to_ulong_small by lia.
  destruct (_ <? _); reflexivity.
Qed.

(** C9: [read_blob] and [status] are pure observers.  After
    [dtbocfg_overlay_item_dtbo_show], on any page or none, and after
    [dtbocfg_overlay_item_status_show] the whole state is what it was: the
    item with its id, blob and blob length, and also the kernel and the
    calls made.  This holds whatever the read returns. *)
Theorem show_is_pure_observer :
  forall s (page : option (list byte)),
    after (dtbocfg_overlay_item_dtbo_show page) s = s /\
    after dtbocfg_overlay_item_status_show s = s.
Proof.
  intros s page. split.
  - apply dtbo_show_after.
  - apply status_show_after.
Qed.

(** C5: for an item whose buffer is well formed, [read_blob] fails with
    TooLarge, [-EINVAL], exactly when the length of the stored blob exceeds
    the limit, [PAGE_SIZE].  It never truncates: when it does not fail it
    returns the whole length and delivers the whole blob.  On an Empty item
    it succeeds with 0 and no bytes. *)
Theorem dtbo_show_too_large_iff :
  forall s (page : list byte),
    blob_inv (obj s) ->
    let r := result (dtbocfg_overlay_item_dtbo_show (Some page)) s in
    (fst r = - EINVAL <-> PAGE_SIZE < blob_length (obj s)) /\
    (blob_length (obj s) <= PAGE_SIZE ->
     fst r = blob_length (obj s) /\ delivered r = blob_bytes (obj s)) /\
    (Empty (obj s) -> fst r = 0 /\ delivered r = []).
Proof.
  intros s page Hinv r. subst r.
  rewrite (dtbo_show_result _ _ Hinv).
  unfold blob_length, blob_bytes, Empty, EINVAL.
  destruct (dtbo (obj s)) as [d|].
  - assert (Hnot : ~ (id (obj s) < 0 /\ Some d = None /\ dtbo_size (obj s) = 0))
      by (intros (_ & Hnone & _); discriminate).
    destruct (Z.ltb_spec PAGE_SIZE (Z.of_nat (List.length d))) as [Hlt|Hge];
      cbn [fst option_map].
    + split; [split; [intros _; exact Hlt | reflexivity]|].
      split; [lia | intros Hempty; destruct (Hnot Hempty)].
    + split; [split; lia|].
      split; [| intros Hempty; destruct (Hnot Hempty)].
      intros _. split; [reflexivity | apply delivered_memcpy].
  - cbn [fst]. split; [split; [discriminate | lia]|].
    split; intros _; split; reflexivity.
Qed.

(** ** Writes of the blob *)

(** A store on an item that is not applied and whose allocation succeeds. *)
Lemma dtbo_store_ok buf s :
  id (obj s) < 0 ->
  let count := Z.of_nat (List.length buf) in
  0 <= result (dtbocfg_overlay_item_dtbo_store buf count) s ->
  count <= INT_MAX ->
  result (dtbocfg_overlay_item_dtbo_store buf count) s = count /\
  dtbo (obj (after (dtbocfg_overlay_item_dtbo_store buf count) s)) = Some buf /\
  dtbo_size (obj (after (dtbocfg_overlay_item_dtbo_store buf count) s)) = count /\
  id (obj (after (dtbocfg_overlay_item_dtbo_store buf count) s)) = id (obj s).
Proof.
  intros Hid count. subst count. unfold_store. run.
  destruct (Z.leb_spec 0 (id (obj s))); [lia|].
  assert (Hlen : 0 <= Z.of_nat (List.length buf)) by lia.
  destruct (0 <? dtbo_size (obj s)); cbn [fst snd kern trace obj];
    match goal with |- context [kmalloc ?k ?n] => destruct (kmalloc k n) as [k' [|]] end;
    cbn [fst snd kern trace obj set_dtbo set_dtbo_size dtbo dtbo_size id];
    unfold ENOMEM; intros Hres Hmax; try lia;
    rewrite to_ssize_t_small, to_int_small, firstn_length_all by lia;
    auto.
Qed.

(** C4: for a byte sequence [b] no longer than the limit, [PAGE_SIZE], and
    an item that is not applied, a successful [store_blob(b)] returns the
    number of bytes stored, the length of [b], and a [read_blob] after it
    returns that length and delivers exactly [b]. *)
Theorem dtbo_store_show_roundtrip :
  forall s (b page : list byte),
    let count := Z.of_nat (List.length b) in
    count <= PAGE_SIZE ->
    ~ Applied (obj s) ->
    0 <= result (dtbocfg_overlay_item_dtbo_store b count) s ->
    result (dtbocfg_overlay_item_dtbo_store b count) s = count /\
    let s' := after (dtbocfg_overlay_item_dtbo_store b count) s in
    fst (result (dtbocfg_overlay_item_dtbo_show (Some page)) s') = count /\
    delivered (result (dtbocfg_overlay_item_dtbo_show (Some page)) s') = b.
Proof.
  intros s b page count. subst count. intros Hlimit Hid Hok.
  unfold Applied in Hid.
  assert (Hid' : id (obj s) < 0) by lia.
  destruct (dtbo_store_ok b s Hid' Hok) as (Hres & Hdtbo & Hsize & _); [lia|].
  split; [exact Hres|]. intros s'. subst s'.
  rewrite dtbo_show_result.
  - rewrite Hdtbo.
    destruct (Z.ltb_spec PAGE_SIZE (Z.of_nat (List.length b))) as [Hlt|_];
      [lia|].
    cbn [fst option_map]. split; [reflexivity|]. apply delivered_memcpy.
  - unfold blob_inv, blob_length. rewrite Hdtbo, Hsize. lia.
Qed.

(** A store on an item that holds an id and a blob is refused. *)
Lemma dtbo_store_busy buf (count : Z) s :
  0 <= id (obj s) ->
  0 < dtbo_size (obj s) ->
  result (dtbocfg_overlay_item_dtbo_store buf count) s = - EPERM /\
  after (dtbocfg_overlay_item_dtbo_store buf count) s = s.
Proof.
  intros Hid Hsize. unfold_store. run.
  destruct (Z.ltb_spec 0 (dtbo_size (obj s))); [|lia].
  destruct (Z.leb_spec 0 (id (obj s))); [|lia].
  split; reflexivity.
Qed.

(** ** Apply and release *)

(** [dtbocfg_overlay_item_create] leaves the blob and the name alone. *)
Lemma create_blob s :
  let s' := after dtbocfg_overlay_item_create s in
  dtbo (obj s') = dtbo (obj s) /\ dtbo_size (obj s') = dtbo_size (obj s) /\
  item (obj s') = item (obj s).
Proof.
  unfold dtbocfg_overlay_item_create. run.
  destruct (of_fdt_unflatten_tree _ _ _) as [k1 [nd|]]; run;
    [|repeat split].
  destruct (of_resolve_phandles _ _) as [k2 r]; run.
  destruct (r =? 0); run; [|repeat split].
  destruct (of_overlay_create _ _) as [k3 r']; run.
  destruct (r' <? 0); run; repeat split.
Qed.

(** It returns 0 when it has got an id, which is then not negative, and keeps
    the id that was when it returns anything else. *)
Lemma create_id s :
  let r := result dtbocfg_overlay_item_create s in
  let s' := after dtbocfg_overlay_item_create s in
  (r = 0 -> 0 <= id (obj s')) /\ (r <> 0 -> id (obj s') = id (obj s)).
Proof.
  unfold dtbocfg_overlay_item_create. run.
  destruct (of_fdt_unflatten_tree _ _ _) as [k1 [nd|]]; run;
    [|split; [discriminate | reflexivity]].
  destruct (of_resolve_phandles _ _) as [k2 r]; run.
  destruct (Z.eqb_spec r 0); run; [|split; [lia | reflexivity]].
  destruct (of_overlay_create _ _) as [k3 r']; run.
  destruct (Z.ltb_spec r' 0); run; cbn [id set_id].
  - split; [lia | reflexivity].
  - split; [intros _; assumption | intros Hne; destruct (Hne eq_refl)].
Qed.

(** The three ways a write of the status goes. *)
Lemma status_store_malformed buf (count : Z) s :
  fst (kstrtoul buf 10) <> 0 ->
  result (dtbocfg_overlay_item_status_store buf count) s = - EPERM /\
  after (dtbocfg_overlay_item_status_store buf count) s = s.
Proof.
  intros Hstatus. unfold dtbocfg_overlay_item_status_store.
  destruct (Z.eqb_spec 0 (fst (kstrtoul buf 10))); [congruence|].
  split; reflexivity.
Qed.

Lemma status_store_enable buf (count : Z) s :
  fst (kstrtoul buf 10) = 0 ->
  snd (kstrtoul buf 10) <> 0 ->
  result (dtbocfg_overlay_item_status_store buf count) s = to_ssize_t count /\
  after (dtbocfg_overlay_item_status_store buf count) s =
  if id (obj s) <? 0 then after dtbocfg_overlay_item_create s else s.
Proof.
  intros Hstatus Hvalue. unfold dtbocfg_overlay_item_status_store.
  rewrite Hstatus. cbn [Z.eqb negb].
  destruct (Z.eqb_spec (snd (kstrtoul buf 10)) 0); [congruence|].
  run. destruct (id (obj s) <? 0); split; reflexivity.
Qed.

Lemma status_store_disable buf (count : Z) s :
  fst (kstrtoul buf 10) = 0 ->
  snd (kstrtoul buf 10) = 0 ->
  result (dtbocfg_overlay_item_status_store buf count) s = to_ssize_t count /\
  after (dtbocfg_overlay_item_status_store buf count) s =
  if 0 <=? id (obj s) then after dtbocfg_overlay_item_release s else s.
Proof.
  intros Hstatus Hvalue. unfold dtbocfg_overlay_item_status_store.
  rewrite Hstatus, Hvalue. cbn [Z.eqb negb].
  run. destruct (0 <=? id (obj s)); split; reflexivity.
Qed.

(** C1, as the driver has it: a write of a non-zero status to an Empty item
    is not refused.  The apply is attempted all the same and the write
    returns the size written, whatever the attempt returns; the blob remains
    absent; and the status still reads as 0 afterwards when the attempt to
    apply what is not there has failed. *)
Theorem status_store_enable_empty :
  forall s buf (count : Z),
    Empty (obj s) ->
    fst (kstrtoul buf 10) = 0 ->
    snd (kstrtoul buf 10) <> 0 ->
    let s' := after (dtbocfg_overlay_item_status_store buf count) s in
    result (dtbocfg_overlay_item_status_store buf count) s = to_ssize_t count /\
    s' = after dtbocfg_overlay_item_create s /\
    dtbo (obj s') = None /\ dtbo_size (obj s') = 0 /\
    (result dtbocfg_overlay_item_create s <> 0 ->
     status_of (snd (result dtbocfg_overlay_item_status_show s')) = false).
Proof.
  intros s buf count (Hid & Hdtbo & Hsize) Hstatus Hvalue s'. subst s'.
  destruct (status_store_enable buf count s Hstatus Hvalue) as [Hres Hafter].
  rewrite Hres, Hafter.
  destruct (Z.ltb_spec (id (obj s)) 0); [|lia].
  destruct (create_blob s) as (Hd & Hs & _).
  destruct (create_id s) as (_ & Hkeep).
  cbn zeta in Hd, Hs, Hkeep. rewrite Hd, Hs.
  repeat split; auto.
  intros Hfail. unfold dtbocfg_overlay_item_status_show. run.
  rewrite (Hkeep Hfail).
  destruct (Z.leb_spec 0 (id (obj s))); [lia | reflexivity].
Qed.

(** C2, as the driver has it: when applying fails during a write of a
    non-zero status to a Loaded item, the item remains Loaded, with no id
    and its blob as it was, and the write returns the size written: the
    error status of [dtbocfg_overlay_item_create] is dropped. *)
Theorem status_store_enable_fails :
  forall s buf (count : Z),
    Loaded (obj s) ->
    fst (kstrtoul buf 10) = 0 ->
    snd (kstrtoul buf 10) <> 0 ->
    result dtbocfg_overlay_item_create s <> 0 ->
    let s' := after (dtbocfg_overlay_item_status_store buf count) s in
    result (dtbocfg_overlay_item_status_store buf count) s = to_ssize_t count /\
    Loaded (obj s') /\ id (obj s') = id (obj s) /\
    dtbo (obj s') = dtbo (obj s) /\ dtbo_size (obj s') = dtbo_size (obj s).
Proof.
  intros s buf count (Hid & Hsize) Hstatus Hvalue Hfail s'. subst s'.
  destruct (status_store_enable buf count s Hstatus Hvalue) as [Hres Hafter].
  rewrite Hres, Hafter.
  destruct (Z.ltb_spec (id (obj s)) 0); [|lia].
  destruct (create_blob s) as (Hd & Hs & _).
  destruct (create_id s) as (_ & Hkeep).
  cbn zeta in Hd, Hs, Hkeep. specialize (Hkeep Hfail).
  unfold Loaded. rewrite Hd, Hs, Hkeep. repeat split; auto.
Qed.

(** Where the item holds an id and a blob of positive size, the Applied
    state of section 4.2, [store_blob] fails with Busy, [-EPERM], for every
    input, and the failed call changes nothing: not the blob, nor the rest
    of the item, nor the kernel. *)
Theorem dtbo_store_applied_busy :
  forall s buf (count : Z),
    Applied (obj s) ->
    0 < dtbo_size (obj s) ->
    result (dtbocfg_overlay_item_dtbo_store buf count) s = - EPERM /\
    after (dtbocfg_overlay_item_dtbo_store buf count) s = s.
Proof.
  intros s buf count Happlied Hsize. apply dtbo_store_busy; assumption.
Qed.

(** C10, as the driver has it: the status store reads its input with
    [kstrtoul] in base 10 and looks only at whether the value is zero.  Two
    inputs that parse to non-zero values leave the same state behind, which
    is that of enabling.  Each write returns the size it was given, so that
    the two results are the same when the sizes are, and not otherwise.  An
    input that parses to zero disables. *)
Theorem status_store_truthiness :
  forall s (buf1 buf2 : list byte) (count1 count2 : Z),
    fst (kstrtoul buf1 10) = 0 ->
    fst (kstrtoul buf2 10) = 0 ->
    (snd (kstrtoul buf1 10) <> 0 ->
     snd (kstrtoul buf2 10) <> 0 ->
     after (dtbocfg_overlay_item_status_store buf1 count1) s =
     after (dtbocfg_overlay_item_status_store buf2 count2) s /\
     after (dtbocfg_overlay_item_status_store buf1 count1) s =
     (if id (obj s) <? 0 then after dtbocfg_overlay_item_create s else s) /\
     result (dtbocfg_overlay_item_status_store buf1 count1) s =
     to_ssize_t count1 /\
     result (dtbocfg_overlay_item_status_store buf2 count2) s =
     to_ssize_t count2 /\
     (count1 = count2 ->
      result (dtbocfg_overlay_item_status_store buf1 count1) s =
      result (dtbocfg_overlay_item_status_store buf2 count2) s)) /\
    (snd (kstrtoul buf1 10) = 0 ->
     after (dtbocfg_overlay_item_status_store buf1 count1) s =
     (if 0 <=? id (obj s) then after dtbocfg_overlay_item_release s else s) /\
     result (dtbocfg_overlay_item_status_store buf1 count1) s =
     to_ssize_t count1).
Proof.
  intros s buf1 buf2 count1 count2 Hs1 Hs2. split.
  - intros Hv1 Hv2.
    destruct (status_store_enable buf1 count1 s Hs1 Hv1) as [Hr1 Ha1].
    destruct (status_store_enable buf2 count2 s Hs2 Hv2) as [Hr2 Ha2].
    rewrite Hr1, Hr2, Ha1, Ha2. repeat split. intros ->. reflexivity.
  - intros Hv1.
    destruct (status_store_disable buf1 count1 s Hs1 Hv1) as [Hr1 Ha1].
    rewrite Hr1, Ha1. split; reflexivity.
Qed.

(** ** The invariant of the blob buffer *)

Lemma release_blob s :
  let s' := after dtbocfg_overlay_item_release s in
  dtbo (obj s') = dtbo (obj s) /\ dtbo_size (obj s') = dtbo_size (obj s).
Proof.
  unfold dtbocfg_overlay_item_release. run.
  destruct (0 <=? id (obj s)); split; reflexivity.
Qed.

Lemma status_store_blob buf (count : Z) s :
  let s' := after (dtbocfg_overlay_item_status_store buf count) s in
  dtbo (obj s') = dtbo (obj s) /\ dtbo_size (obj s') = dtbo_size (obj s).
Proof.
  cbn zeta.
  destruct (Z.eq_dec (fst (kstrtoul buf 10)) 0) as [Hstatus|Hstatus].
  - destruct (Z.eq_dec (snd (kstrtoul buf 10)) 0) as [Hvalue|Hvalue].
    + destruct (status_store_disable buf count s Hstatus Hvalue) as [_ ->].
      destruct (0 <=? id (obj s)); [apply release_blob | split; reflexivity].
    + destruct (status_store_enable buf count s Hstatus Hvalue) as [_ ->].
      destruct (id (obj s) <? 0); [|split; reflexivity].
      destruct (create_blob s) as (Hd & Hs & _). split; assumption.
  - destruct (status_store_malformed buf count s Hstatus) as [_ ->].
    split; reflexivity.
Qed.

Lemma dtbo_store_blob_inv buf s :
  let count := Z.of_nat (List.length buf) in
  count <= INT_MAX ->
  blob_inv (obj s) ->
  blob_inv (obj (after (dtbocfg_overlay_item_dtbo_store buf count) s)).
Proof.
  intros count. subst count. intros Hmax Hinv.
  unfold blob_inv, blob_length in *. unfold_store. run.
  assert (Hlen : 0 <= Z.of_nat (List.length buf)) by lia.
  unfold INT_MAX in *.
  destruct (0 <? dtbo_size (obj s)); [destruct (0 <=? id (obj s))|]; run;
    try exact Hinv;
    destruct (kmalloc _ _) as [k' [|]]; run;
    cbn [dtbo dtbo_size set_dtbo set_dtbo_size];
    rewrite ?firstn_length_all, ?to_int_small by (unfold INT_MAX; lia);
    lia.
Qed.

(** The invariant holds for an item just made and is kept by every
    operation that configfs issues. *)
Lemma made_blob_inv (name : string) (k : K) s :
  made name k = Some s -> Empty (obj s) /\ blob_inv (obj s).
Proof.
  unfold made, dtbocfg_overlay_group_make_item. run.
  destruct (kmalloc k sizeof_overlay) as [k' [|]]; cbn [fst snd];
    [|discriminate].
  intros [= <-]. unfold Empty, blob_inv, blob_length, INT_MAX. cbn.
  repeat split; lia.
Qed.

Lemma run_ops_blob_inv (l : list op) :
  forall s,
    Forall well_formed_op l ->
    blob_inv (obj s) -> blob_inv (obj (after (run_ops l) s)).
Proof.
  induction l as [|o l IH]; intros s Hl Hinv; [exact Hinv|].
  inversion Hl as [|o' l' Ho Hl']; subst.
  cbn [run_ops]. unfold after, bind. apply IH; [exact Hl'|].
  destruct o as [buf count| |buf count|page]; cbn [run_op];
    unfold bind, ret; cbn [fst snd].
  - destruct (status_store_blob buf count s) as [Hd Hs].
    unfold after in Hd, Hs. unfold blob_inv, blob_length in *.
    rewrite Hd, Hs. exact Hinv.
  - exact Hinv.
  - destruct Ho as [-> Hmax]. apply dtbo_store_blob_inv; assumption.
  - fold (after (dtbocfg_overlay_item_dtbo_show page) s).
    rewrite dtbo_show_after. exact Hinv.
Qed.

(** ** The protocol of apply and release *)

Lemma protocol_app (tr1 tr2 : list event) :
  forall held : option Z,
    protocol held (tr1 ++ tr2) =
    match protocol held tr1 with
    | Some held' => protocol held' tr2
    | None => None
    end.
Proof.
  induction tr1 as [|e tr1 IH]; intros held; [reflexivity|].
  destruct e; cbn [app protocol]; try apply IH.
  - destruct (r <? 0); [apply IH|]. destruct held; [reflexivity | apply IH].
  - destruct held as [j|]; [|reflexivity].
    destruct (i =? j); [apply IH | reflexivity].
Qed.

(** In a trace that keeps the protocol, the ids created are the ids released
    and the one held, in this order. *)
Lemma protocol_ids (tr : list event) :
  forall held held' : option Z,
    protocol held tr = Some held' ->
    held_list held ++ created_ids tr = released_ids tr ++ held_list held'.
Proof.
  induction tr as [|e tr IH]; intros held held' Hp.
  - injection Hp as ->. cbn. apply app_nil_r.
  - destruct e; cbn [protocol] in Hp;
      try (cbn [created_ids released_ids flat_map app]; apply IH; exact Hp).
    + cbn [created_ids released_ids flat_map app].
      fold (created_ids tr). fold (released_ids tr).
      destruct (r <? 0); [apply IH; exact Hp|].
      destruct held; [discriminate|].
      apply (IH (Some r)). exact Hp.
    + cbn [created_ids released_ids flat_map app].
      fold (created_ids tr). fold (released_ids tr).
      destruct held as [j|]; [|discriminate].
      destruct (Z.eqb_spec i j) as [->|]; [|discriminate].
      cbn [held_list app]. f_equal. apply (IH None). exact Hp.
Qed.

Lemma keeps_protocol_unchanged {A : Type} (m : M K dtbocfg_overlay_item A) s :
  after m s = s -> keeps_protocol m s.
Proof.
  intros Hafter. exists []. rewrite Hafter, app_nil_r. split; reflexivity.
Qed.

Lemma keeps_protocol_bind {A B : Type} (m : M K dtbocfg_overlay_item A)
      (f : A -> M K dtbocfg_overlay_item B) s :
  keeps_protocol m s ->
  keeps_protocol (f (result m s)) (after m s) ->
  keeps_protocol (bind m f) s.
Proof.
  intros (evs1 & Ht1 & Hp1) (evs2 & Ht2 & Hp2).
  exists (evs1 ++ evs2). split.
  - unfold after, bind in *. unfold result in Ht2. rewrite Ht2, Ht1.
    symmetry. apply app_assoc.
  - rewrite protocol_app, Hp1. exact Hp2.
Qed.

Lemma create_keeps_protocol s :
  id (obj s) < 0 -> keeps_protocol dtbocfg_overlay_item_create s.
Proof.
  intros Hid. unfold keeps_protocol, held_id, dtbocfg_overlay_item_create.
  destruct (Z.leb_spec 0 (id (obj s))) as [|_]; [lia|]. run.
  destruct (of_fdt_unflatten_tree _ _ _) as [k1 [nd|]]; run; cbn [id set_node].
  2:{ eexists. split; [reflexivity|]. cbn [protocol].
      destruct (Z.leb_spec 0 (id (obj s))); [lia | reflexivity]. }
  destruct (of_resolve_phandles _ _) as [k2 r]; run.
  destruct (r =? 0); run; cbn [id set_node].
  2:{ eexists. split; [rewrite <- !app_assoc; reflexivity|]. cbn [protocol app].
      destruct (Z.leb_spec 0 (id (obj s))); [lia | reflexivity]. }
  destruct (of_overlay_create _ _) as [k3 r']; run.
  destruct (Z.ltb_spec r' 0) as [Hneg|Hpos]; run; cbn [id set_node set_id];
    (eexists; split; [rewrite <- !app_assoc; reflexivity|]); cbn [protocol app].
  - destruct (Z.ltb_spec r' 0); [|lia].
    destruct (Z.leb_spec 0 (id (obj s))); [lia | reflexivity].
  - destruct (Z.ltb_spec r' 0); [lia|].
    destruct (Z.leb_spec 0 r'); [reflexivity | lia].
Qed.

Lemma release_keeps_protocol s :
  keeps_protocol dtbocfg_overlay_item_release s.
Proof.
  unfold keeps_protocol, held_id, dtbocfg_overlay_item_release. run.
  destruct (Z.leb_spec 0 (id (obj s))); run; cbn [id set_id].
  - eexists. split; [reflexivity|]. cbn [protocol].
    rewrite Z.eqb_refl. reflexivity.
  - exists []. rewrite app_nil_r. split; [reflexivity|]. cbn [protocol].
    destruct (Z.leb_spec 0 (id (obj s))); [lia | reflexivity].
Qed.

Lemma status_store_keeps_protocol buf (count : Z) s :
  keeps_protocol (dtbocfg_overlay_item_status_store buf count) s.
Proof.
  destruct (Z.eq_dec (fst (kstrtoul buf 10)) 0) as [Hstatus|Hstatus].
  - destruct (Z.eq_dec (snd (kstrtoul buf 10)) 0) as [Hvalue|Hvalue].
    + destruct (status_store_disable buf count s Hstatus Hvalue) as [_ Ha].
      destruct (release_keeps_protocol s) as (evs & Ht & Hp).
      destruct (0 <=? id (obj s)).
      * exists evs. rewrite Ha. split; assumption.
      * apply keeps_protocol_unchanged. exact Ha.
    + destruct (status_store_enable buf count s Hstatus Hvalue) as [_ Ha].
      destruct (Z.ltb_spec (id (obj s)) 0) as [Hid|Hid].
      * destruct (create_keeps_protocol s Hid) as (evs & Ht & Hp).
        exists evs. rewrite Ha. split; assumption.
      * apply keeps_protocol_unchanged. exact Ha.
  - apply keeps_protocol_unchanged.
    apply (status_store_malformed buf count s Hstatus).
Qed.

Lemma dtbo_store_keeps_protocol buf (count : Z) s :
  keeps_protocol (dtbocfg_overlay_item_dtbo_store buf count) s.
Proof.
  unfold keeps_protocol, held_id. unfold_store. run.
  destruct (0 <? dtbo_size (obj s)); [destruct (0 <=? id (obj s)) eqn:Hid|];
    run.
  - exists []. rewrite app_nil_r, Hid. split; reflexivity.
  - destruct (kmalloc _ _) as [k' [|]]; run;
      cbn [id set_dtbo set_dtbo_size]; rewrite Hid;
      (eexists; split; [rewrite <- !app_assoc; reflexivity | reflexivity]).
  - destruct (kmalloc _ _) as [k' [|]]; run;
      cbn [id set_dtbo set_dtbo_size];
      (eexists; split; [reflexivity | reflexivity]).
Qed.

Lemma run_op_keeps_protocol (o : op) s : keeps_protocol (run_op o) s.
Proof.
  destruct o as [buf count| |buf count|page]; cbn [run_op];
    apply keeps_protocol_bind;
    try (apply keeps_protocol_unchanged; reflexivity).
  - apply status_store_keeps_protocol.
  - apply dtbo_store_keeps_protocol.
  - apply keeps_protocol_unchanged. apply dtbo_show_after.
Qed.

Lemma run_ops_keeps_protocol (l : list op) :
  forall s, keeps_protocol (run_ops l) s.
Proof.
  induction l as [|o l IH]; intros s; cbn [run_ops].
  - apply keeps_protocol_unchanged. reflexivity.
  - apply keeps_protocol_bind; [apply run_op_keeps_protocol | apply IH].
Qed.

(** An item just made holds no id, and its trace has no overlay call. *)
Lemma made_fresh (name : string) (k : K) s :
  made name k = Some s ->
  obj s = mk_overlay (mk_config_item name) None (-1) None 0 /\
  protocol None (trace s) = Some None /\
  created_ids (trace s) = [] /\ released_ids (trace s) = [].
Proof.
  unfold made, dtbocfg_overlay_group_make_item. run.
  destruct (kmalloc k sizeof_overlay) as [k' [|]]; cbn [fst snd];
    [|discriminate].
  intros [= <-]. repeat split.
Qed.

(** From the making of an item on, its trace keeps the protocol. *)
Lemma made_run_ops_protocol (name : string) (k : K) (l : list op) s :
  made name k = Some s ->
  protocol None (trace (after (run_ops l) s)) =
  Some (held_id (obj (after (run_ops l) s))).
Proof.
  intros Hmade. destruct (made_fresh name k s Hmade) as (Hobj & Hp & _).
  destruct (run_ops_keeps_protocol l s) as (evs & Ht & Hp').
  rewrite Ht, protocol_app, Hp. rewrite Hobj in Hp'. exact Hp'.
Qed.

(** Writes of a non-zero status to an item that holds an id do nothing. *)
Lemma run_ops_enables_applied (l : list op) s :
  Applied (obj s) -> Forall enables l -> after (run_ops l) s = s.
Proof.
  unfold Applied. intros Hid Hl.
  induction Hl as [|o l Ho _ IH]; [reflexivity|].
  destruct o as [buf count| | |]; cbn [enables] in Ho; try contradiction.
  destruct Ho as [Hs Hv].
  destruct (status_store_enable buf count s Hs Hv) as [_ Ha].
  destruct (Z.ltb_spec (id (obj s)) 0); [lia|].
  cbn [run_ops run_op]. unfold after, bind in *. cbn [fst snd ret].
  rewrite Ha. exact IH.
Qed.

(** C6: the status store is idempotent in both directions.  On an item that
    is not applied, a write of zero returns the size written and does
    nothing: the item, the kernel and the trace are as before, so that no
    kernel call was made.  On an applied item, any number of writes of
    non-zero values leave the state, and with it the trace, as it was:
    applying is not invoked again.  And whatever is done with an item from
    its making on, its trace keeps the protocol: an overlay is created only
    when none is held, so that between two releases at most one apply comes
    about. *)
Theorem status_store_idempotent :
  forall s buf (count : Z) (l l' : list op) (name : string) (k : K)
         (s0 : state K dtbocfg_overlay_item),
    (~ Applied (obj s) ->
     fst (kstrtoul buf 10) = 0 ->
     snd (kstrtoul buf 10) = 0 ->
     result (dtbocfg_overlay_item_status_store buf count) s =
     to_ssize_t count /\
     after (dtbocfg_overlay_item_status_store buf count) s = s) /\
    (Applied (obj s) ->
     Forall enables l ->
     after (run_ops l) s = s /\
     filter is_apply_event (trace (after (run_ops l) s)) =
     filter is_apply_event (trace s)) /\
    (made name k = Some s0 ->
     protocol None (trace (after (run_ops l') s0)) =
     Some (held_id (obj (after (run_ops l') s0)))).
Proof.
  intros s buf count l l' name k s0. split; [|split].
  - unfold Applied. intros Hid Hs Hv.
    destruct (status_store_disable buf count s Hs Hv) as [Hr Ha].
    rewrite Hr, Ha. destruct (Z.leb_spec 0 (id (obj s))); [lia|].
    split; reflexivity.
  - intros Happlied Hl.
    rewrite (run_ops_enables_applied l s Happlied Hl). split; reflexivity.
  - apply made_run_ops_protocol.
Qed.

(** ** Dropping an item *)

Lemma overlay_release_applied s :
  Applied (obj s) ->
  let s' := after dtbocfg_overlay_release s in
  trace s' =
  trace s ++
  ev_overlay_destroy (id (obj s)) ::
  match dtbo (obj s) with
  | Some d => [ev_kfree (mem_dtbo (Some d))]
  | None => []
  end ++ [ev_kfree mem_overlay] /\
  id (obj s') = -1 /\ dtbo (obj s') = None.
Proof.
  unfold Applied, dtbocfg_overlay_release, dtbocfg_overlay_item_release.
  intros Hid. run.
  destruct (Z.leb_spec 0 (id (obj s))); [|lia]. run. cbn [dtbo set_id].
  destruct (dtbo (obj s)) as [d|] eqn:Hd; run;
    cbn [id dtbo set_id set_dtbo set_dtbo_size]; rewrite <- ?app_assoc;
    repeat split; try assumption.
Qed.

Lemma overlay_release_keeps_protocol s :
  exists evs : list event,
    trace (after dtbocfg_overlay_release s) = trace s ++ evs /\
    protocol (held_id (obj s)) evs = Some None.
Proof.
  unfold held_id, dtbocfg_overlay_release, dtbocfg_overlay_item_release. run.
  destruct (Z.leb_spec 0 (id (obj s))); run; cbn [dtbo set_id];
    destruct (dtbo (obj s)) as [d|]; run;
    (eexists; split; [rewrite <- ?app_assoc; reflexivity|]);
    cbn [protocol app]; rewrite ?Z.eqb_refl; reflexivity.
Qed.

(** The trace of a whole life is that of the run on the item made. *)
Lemma life_trace (name : string) (k : K) (l : list op) s :
  made name k = Some s ->
  trace (after (life name l) (mk_state k [] tt)) =
  trace (after dtbocfg_overlay_release (after (run_ops l) s)).
Proof.
  unfold made, life, dtbocfg_overlay_group_drop_item, config_item_put.
  unfold after, bind, with_obj.
  destruct (fst (dtbocfg_overlay_group_make_item name (mk_state k [] tt)));
    [discriminate|].
  intros [= <-]. reflexivity.
Qed.

(** C7: destroying an applied item, which dropping it brings about, calls
    [of_overlay_destroy] on its id exactly once, then frees the blob, if
    there is one, then frees the item.  Over the operations of an item, from
    its making on, the ids released and the id still held are the ids that
    the successful applies returned, in their order, and at the end of its
    life all of them are released: every release answers one apply of its
    own.  When the ids the applies return are distinct, no id is released
    twice. *)
Theorem overlay_release_once :
  forall s (l : list op) (name : string) (k : K)
         (s0 : state K dtbocfg_overlay_item),
    (Applied (obj s) ->
     let s' := after dtbocfg_overlay_group_drop_item s in
     trace s' =
     trace s ++
     ev_overlay_destroy (id (obj s)) ::
     match dtbo (obj s) with
     | Some d => [ev_kfree (mem_dtbo (Some d))]
     | None => []
     end ++ [ev_kfree mem_overlay] /\
     released_ids (trace s') = released_ids (trace s) ++ [id (obj s)] /\
     id (obj s') = -1 /\ dtbo (obj s') = None) /\
    (made name k = Some s0 ->
     let s1 := after (run_ops l) s0 in
     let s2 := after (life name l) (mk_state k [] tt) in
     created_ids (trace s1) =
     released_ids (trace s1) ++ held_list (held_id (obj s1)) /\
     released_ids (trace s2) = created_ids (trace s2) /\
     (NoDup (created_ids (trace s2)) -> NoDup (released_ids (trace s2)))).
Proof.
  intros s l name k s0. split.
  - intros Happlied s'. subst s'.
    unfold dtbocfg_overlay_group_drop_item, config_item_put.
    destruct (overlay_release_applied s Happlied) as (Ht & Hid & Hd).
    repeat split; try assumption.
    rewrite Ht. unfold released_ids. rewrite flat_map_app. f_equal.
    destruct (dtbo (obj s)); reflexivity.
  - intros Hmade s1 s2. subst s1 s2.
    pose proof (made_run_ops_protocol name k l s0 Hmade) as Hp.
    assert (Hlife : protocol None
                      (trace (after (life name l) (mk_state k [] tt))) =
                    Some None).
    { rewrite (life_trace name k l s0 Hmade).
      destruct (overlay_release_keeps_protocol (after (run_ops l) s0))
        as (evs & Ht & Hp').
      rewrite Ht, protocol_app, Hp. exact Hp'. }
    apply protocol_ids in Hp. apply protocol_ids in Hlife.
    cbn [held_list app] in Hp, Hlife. rewrite app_nil_r in Hlife.
    split; [exact Hp|]. split; [symmetry; exact Hlife|].
    rewrite Hlife. trivial.
Qed.

(** ** Module initialisation *)

Lemma registered_app (r : bool * bool) (tr1 tr2 : list event) :
  registered r (tr1 ++ tr2) = registered (registered r tr1) tr2.
Proof. apply fold_left_app. Qed.

(** C8: when the registration of the subsystem succeeds and that of the
    group fails, [dtbocfg_module_init] unregisters the subsystem and then
    returns the error of the group registration, so that nothing stays
    registered.  It returns 0 only when both registrations returned 0, and
    then both are registered. *)
Theorem module_init_unwinds :
  forall s : state K unit,
    let k1 :=
      config_group_init (config_group_init (kern s) "device-tree") "overlays"
    in
    let rs := snd (configfs_register_subsystem k1) in
    let rg :=
      snd (configfs_register_group (fst (configfs_register_subsystem k1))) in
    let r := result dtbocfg_module_init s in
    let s' := after dtbocfg_module_init s in
    (rs = 0 ->
     rg <> 0 ->
     r = rg /\
     trace s' =
     trace s ++
     [ev_group_init "device-tree"; ev_group_init "overlays";
      ev_register_subsystem 0; ev_register_group rg;
      ev_unregister_subsystem]) /\
    (r = 0 <-> rs = 0 /\ rg = 0) /\
    (registered (false, false) (trace s) = (false, false) ->
     registered (false, false) (trace s') =
     if r =? 0 then (true, true) else (false, false)).
Proof.
  intros s k1 rs rg r s'. subst r s' rs rg k1.
  unfold dtbocfg_module_init. run.
  destruct (configfs_register_subsystem _) as [k2 rs]; run.
  destruct (Z.eqb_spec rs 0) as [->|Hrs]; run.
  - destruct (configfs_register_group k2) as [k3 rg]; run.
    destruct (Z.eqb_spec rg 0) as [->|Hrg]; run.
    + split; [intros _ Hne; destruct (Hne eq_refl)|].
      split; [split; auto|].
      intros Hreg. rewrite !registered_app, Hreg. reflexivity.
    + split; [intros _ _; split; [reflexivity|]|].
      { rewrite <- !app_assoc. reflexivity. }
      split; [split; [intros ->; destruct (Hrg eq_refl) | intros [_ Hz]; exact Hz]|].
      intros Hreg. rewrite !registered_app, Hreg.
      destruct (Z.eqb_spec rg 0); [contradiction|].
      cbn. destruct (Z.eqb_spec rg 0); [contradiction | reflexivity].
  - split; [intros Hz; destruct (Hrs Hz)|].
    split; [split; [intros ->; destruct (Hrs eq_refl) | intros [Hz _]; exact Hz]|].
    intros Hreg. rewrite !registered_app, Hreg.
    destruct (Z.eqb_spec rs 0); [contradiction|].
    cbn. destruct (Z.eqb_spec rs 0); [contradiction | reflexivity].
Qed.

End Properties.

(** * The properties on the kernel [Sim] *)

(** Settles a closed statement about a run by evaluating it. *)
Ltac evaluate :=
  cbn; repeat split; try reflexivity; try lia; try discriminate.

Lemma sim_page_size_range : 0 < @PAGE_SIZE Sim.t Sim.kernel <= INT_MAX.
Proof. unfold INT_MAX. cbn. lia. Defined.

(** The scenario of section 8: an item is made, a blob stored, the status
    enabled, for which the kernel gives the id 3, and read, and the item
    dropped.  The overlay is created once and destroyed once, before the blob
    and the item are freed. *)
Example fpga0_scenario :
  trace
    (after
       (life "fpga0"
             [op_dtbo_store Sim.fdt 4; op_status_store [x31; x0a] 2;
              op_status_show])
       (mk_state (Sim.mk 3 [] 0 0 0) [] tt)) =
  [ev_kmalloc 128 true; ev_item_init "fpga0"; ev_kmalloc 4 true;
   ev_unflatten (Some Sim.fdt) (Some 1); ev_set_flag 1;
   ev_resolve_phandles 1 0; ev_overlay_create 1 3; ev_overlay_destroy 3;
   ev_kfree (mem_dtbo (Some Sim.fdt)); ev_kfree mem_overlay].
Proof. reflexivity. Qed.

(** The run [Sim.reapply] in a kernel short of memory ends with an item that
    holds an id and no blob: the second apply works on the tree that the
    first one has left in [overlay->node]. *)
Example applied_without_blob_reached :
  exists s0 : state Sim.t dtbocfg_overlay_item,
    made "fpga0" Sim.low_memory = Some s0 /\
    obj (after (run_ops Sim.reapply) s0) = Sim.applied_without_blob.
Proof. eexists. split; reflexivity. Qed.

(** C1 fails as stated: on the Empty item just made, a write of 1 to the
    status returns 1, the size written, and not an error, although
    [dtbocfg_overlay_item_create] has returned [-EINVAL]. *)
Lemma status_store_enable_empty_succeeds :
  Empty (obj (Sim.on Sim.fresh)) /\
  kstrtoul [x31] 10 = (0, 1) /\
  result dtbocfg_overlay_item_create (Sim.on Sim.fresh) = - EINVAL /\
  result (dtbocfg_overlay_item_status_store [x31] 1) (Sim.on Sim.fresh) = 1.
Proof. unfold Empty. evaluate. Qed.

Lemma status_store_enable_empty_witness :
  Empty (obj (Sim.on Sim.fresh)) /\
  result (dtbocfg_overlay_item_status_store [x31] 1) (Sim.on Sim.fresh) =
  to_ssize_t 1 /\
  dtbo (obj (after (dtbocfg_overlay_item_status_store [x31] 1)
                   (Sim.on Sim.fresh))) = None.
Proof.
  assert (Hempty : Empty (obj (Sim.on Sim.fresh))).
  { unfold Empty. evaluate. }
  split; [exact Hempty|].
  destruct (status_store_enable_empty (Sim.on Sim.fresh) [x31] 1 Hempty)
    as (Hres & _ & Hdtbo & _).
  - reflexivity.
  - cbn. discriminate.
  - split; [exact Hres | exact Hdtbo].
Defined.

(** C2 fails as stated: in the kernel [Sim.unresolved] applying the Loaded
    item fails with [-EINVAL], and the write of 1 to the status returns 1,
    the size written, not that error. *)
Lemma status_store_drops_error :
  Loaded Sim.loaded /\
  result dtbocfg_overlay_item_create
         (mk_state Sim.unresolved [] Sim.loaded) = - EINVAL /\
  result (dtbocfg_overlay_item_status_store [x31] 1)
         (mk_state Sim.unresolved [] Sim.loaded) = 1 /\
  1 <> - EINVAL.
Proof. unfold Loaded. evaluate. Qed.

Lemma status_store_enable_fails_witness :
  Loaded Sim.loaded /\
  result (dtbocfg_overlay_item_status_store [x31] 1)
         (mk_state Sim.unresolved [] Sim.loaded) = to_ssize_t 1 /\
  Loaded (obj (after (dtbocfg_overlay_item_status_store [x31] 1)
                     (mk_state Sim.unresolved [] Sim.loaded))).
Proof.
  assert (Hloaded : Loaded (obj (mk_state Sim.unresolved [] Sim.loaded))).
  { unfold Loaded. evaluate. }
  split; [exact Hloaded|].
  destruct (status_store_enable_fails
              (mk_state Sim.unresolved [] Sim.loaded) [x31] 1 Hloaded)
    as (Hres & Hstill & _).
  - reflexivity.
  - cbn. discriminate.
  - cbn. discriminate.
  - split; [exact Hres | exact Hstill].
Defined.

(** On the item [Sim.applied_without_blob], which holds an id and no blob,
    a store of one byte is not refused with [-EPERM]: it returns 1 and the
    item, still applied, has a blob that it had not. *)
Lemma dtbo_store_applied_not_busy :
  Applied (obj (Sim.on Sim.applied_without_blob)) /\
  result (dtbocfg_overlay_item_dtbo_store [x00] 1)
         (Sim.on Sim.applied_without_blob) = 1 /\
  1 <> - EPERM /\
  dtbo (obj (Sim.on Sim.applied_without_blob)) = None /\
  dtbo (obj (after (dtbocfg_overlay_item_dtbo_store [x00] 1)
                   (Sim.on Sim.applied_without_blob))) = Some [x00].
Proof. unfold Applied. evaluate. Qed.

Lemma dtbo_store_applied_busy_witness :
  result (dtbocfg_overlay_item_dtbo_store [x00] 1) (Sim.on Sim.applied) =
  - EPERM /\
  after (dtbocfg_overlay_item_dtbo_store [x00] 1) (Sim.on Sim.applied) =
  Sim.on Sim.applied.
Proof.
  apply (dtbo_store_applied_busy (Sim.on Sim.applied) [x00] 1).
  - unfold Applied. cbn. lia.
  - cbn. lia.
Defined.

(** C3: the driver misses what the claim says on an item that holds an id
    and no blob, and such an item comes about.  In a kernel that is short of
    memory at the second write of the blob, the run [Sim.reapply] leaves the
    item applied, under the id 1, with no blob and the size 0.  A write of
    one byte to the blob is then not refused with [-EPERM]: it returns 1,
    and the item, applied as before, holds the byte as its blob. *)
Theorem dtbo_store_applied_slips :
  exists s0 : state Sim.t dtbocfg_overlay_item,
    made "fpga0" Sim.low_memory = Some s0 /\
    let s := after (run_ops Sim.reapply) s0 in
    let s' := after (dtbocfg_overlay_item_dtbo_store [x00] 1) s in
    Applied (obj s) /\ id (obj s) = 1 /\
    dtbo (obj s) = None /\ dtbo_size (obj s) = 0 /\
    result (dtbocfg_overlay_item_dtbo_store [x00] 1) s = 1 /\
    1 <> - EPERM /\
    Applied (obj s') /\ dtbo (obj s') = Some [x00].
Proof.
  eexists. split; [reflexivity|]. unfold Applied. evaluate.
Qed.

(** C10 fails as stated: on the same item the writes of "1" and of "42" with
    a newline, which both parse to non-zero values, leave the same state
    behind, and return 1 and 3, the sizes written. *)
Lemma status_store_results_differ :
  kstrtoul [x31] 10 = (0, 1) /\
  kstrtoul [x34; x32; x0a] 10 = (0, 42) /\
  after (dtbocfg_overlay_item_status_store [x31] 1) (Sim.on Sim.loaded) =
  after (dtbocfg_overlay_item_status_store [x34; x32; x0a] 3)
        (Sim.on Sim.loaded) /\
  result (dtbocfg_overlay_item_status_store [x31] 1) (Sim.on Sim.loaded) = 1 /\
  result (dtbocfg_overlay_item_status_store [x34; x32; x0a] 3)
         (Sim.on Sim.loaded) = 3.
Proof. evaluate. Qed.

Lemma dtbo_store_show_roundtrip_witness :
  result (dtbocfg_overlay_item_dtbo_store Sim.fdt 4) (Sim.on Sim.fresh) = 4 /\
  delivered
    (result (dtbocfg_overlay_item_dtbo_show (Some [x00; x00; x00; x00; x00]))
            (after (dtbocfg_overlay_item_dtbo_store Sim.fdt 4)
                   (Sim.on Sim.fresh))) = Sim.fdt.
Proof.
  destruct (dtbo_store_show_roundtrip sim_page_size_range
              (Sim.on Sim.fresh) Sim.fdt [x00; x00; x00; x00; x00])
    as (Hres & _ & Hread).
  - cbn. lia.
  - unfold Applied. cbn. lia.
  - cbn. lia.
  - split; [exact Hres | exact Hread].
Defined.

Lemma dtbo_show_too_large_iff_witness :
  blob_inv (obj (Sim.on Sim.loaded)) /\
  fst (result (dtbocfg_overlay_item_dtbo_show (Some [x00; x00; x00; x00; x00]))
              (Sim.on Sim.loaded)) = 4 /\
  delivered
    (result (dtbocfg_overlay_item_dtbo_show (Some [x00; x00; x00; x00; x00]))
            (Sim.on Sim.loaded)) = Sim.fdt.
Proof.
  assert (Hinv : blob_inv (obj (Sim.on Sim.loaded))).
  { unfold blob_inv, INT_MAX. cbn. lia. }
  split; [exact Hinv|].
  destruct (dtbo_show_too_large_iff sim_page_size_range
              (Sim.on Sim.loaded) [x00; x00; x00; x00; x00] Hinv)
    as (_ & Hwhole & _).
  apply Hwhole. cbn. lia.
Defined.

Lemma status_store_idempotent_witness :
  (result (dtbocfg_overlay_item_status_store [x30] 1) (Sim.on Sim.loaded) =
   to_ssize_t 1 /\
   after (dtbocfg_overlay_item_status_store [x30] 1) (Sim.on Sim.loaded) =
   Sim.on Sim.loaded) /\
  after (run_ops [op_status_store [x31] 1; op_status_store [x32; x0a] 2])
        (Sim.on Sim.applied) = Sim.on Sim.applied /\
  protocol None
    (trace (after (run_ops Sim.reapply)
                  (mk_state Sim.boot [ev_kmalloc 128 true; ev_item_init "fpga0"]
                         Sim.fresh))) =
  Some (Some 1).
Proof.
  destruct (status_store_idempotent
              (Sim.on Sim.loaded) [x30] 1 [] Sim.reapply "fpga0" Sim.boot
              (mk_state Sim.boot [ev_kmalloc 128 true; ev_item_init "fpga0"]
                         Sim.fresh))
    as (Hoff & _ & Hprotocol).
  destruct (status_store_idempotent
              (Sim.on Sim.applied) [] 0
              [op_status_store [x31] 1; op_status_store [x32; x0a] 2] []
              "fpga0" Sim.boot (Sim.on Sim.fresh))
    as (_ & Hon & _).
  split; [|split].
  - apply Hoff.
    + unfold Applied. cbn. lia.
    + reflexivity.
    + reflexivity.
  - apply Hon.
    + unfold Applied. cbn. lia.
    + repeat constructor; cbn; discriminate.
  - apply Hprotocol. reflexivity.
Defined.

Lemma overlay_release_once_witness :
  trace (after dtbocfg_overlay_group_drop_item (Sim.on Sim.applied)) =
  [ev_overlay_destroy 0; ev_kfree (mem_dtbo (Some Sim.fdt));
   ev_kfree mem_overlay] /\
  released_ids
    (trace (after (life "fpga0" Sim.reapply) (mk_state Sim.boot [] tt))) =
  created_ids
    (trace (after (life "fpga0" Sim.reapply) (mk_state Sim.boot [] tt))).
Proof.
  destruct (overlay_release_once
              (Sim.on Sim.applied) Sim.reapply "fpga0" Sim.boot
              (mk_state Sim.boot [ev_kmalloc 128 true; ev_item_init "fpga0"]
                         Sim.fresh))
    as (Hdrop & Hlife).
  split.
  - apply Hdrop. unfold Applied. cbn. lia.
  - apply Hlife. reflexivity.
Defined.

Lemma module_init_unwinds_witness :
  result dtbocfg_module_init (mk_state Sim.no_group [] tt) = - ENOMEM /\
  trace (after dtbocfg_module_init (mk_state Sim.no_group [] tt)) =
  [ev_group_init "device-tree"; ev_group_init "overlays";
   ev_register_subsystem 0; ev_register_group (- ENOMEM);
   ev_unregister_subsystem].
Proof.
  destruct (module_init_unwinds (mk_state Sim.no_group [] tt))
    as (Hunwind & _).
  apply Hunwind.
  - reflexivity.
  - cbn. discriminate.
Defined.

Lemma status_store_truthiness_witness :
  after (dtbocfg_overlay_item_status_store [x31] 1) (Sim.on Sim.loaded) =
  after (dtbocfg_overlay_item_status_store [x34; x32; x0a] 3)
        (Sim.on Sim.loaded).
Proof.
  destruct (status_store_truthiness
              (Sim.on Sim.loaded) [x31] [x34; x32; x0a] 1 3)
    as (Henable & _).
  - reflexivity.
  - reflexivity.
  - apply Henable; cbn; discriminate.
Defined.

(** * More of the driver *)

(** ** What the operations emit *)

(** The kernel calls that the attribute operations of an item may make: all
    but the initialisation and the freeing of the item and the calls of
    module initialisation and exit. *)
Definition attribute_event (e : event) : bool :=
  match e with
  | ev_kfree mem_overlay | ev_group_init _ | ev_item_init _
  | ev_register_subsystem _
  | ev_register_group _ | ev_unregister_subsystem | ev_unregister_group =>
      false
  | _ => true
  end.

(** The run of [m] from [s] adds to the trace only events that pass [P]. *)
Definition emits {K O A : Type} (P : event -> bool) (m : M K O A)
  (s : state K O) : Prop :=
  exists evs : list event,
    trace (after m s) = trace s ++ evs /\ forallb P evs = true.

(** The memory that the driver holds according to a trace: the successful
    allocations of a positive size, and the buffers of a positive size and
    the items handed to [kfree]. *)
Definition allocation (e : event) : bool :=
  match e with
  | ev_kmalloc size true => 0 <? size
  | _ => false
  end.

Definition release_of_memory (e : event) : bool :=
  match e with
  | ev_kfree mem_overlay | ev_kfree (mem_dtbo (Some (_ :: _))) => true
  | _ => false
  end.

Definition allocations (tr : list event) : nat :=
  List.length (filter allocation tr).

Definition frees (tr : list event) : nat :=
  List.length (filter release_of_memory tr).

(** The buffers of a positive size that an item holds: one or none. *)
Definition live_blob (o : dtbocfg_overlay_item) : nat :=
  match dtbo o with
  | Some (_ :: _) => 1
  | _ => 0
  end.

(** An event that neither allocates nor frees. *)
Definition memory_quiet (e : event) : bool :=
  negb (allocation e) && negb (release_of_memory e).

(** What the driver holds for an item that lives: the item itself and its
    blob, when that has a positive size. *)
Definition memory_inv {K : Type} (s : state K dtbocfg_overlay_item) : Prop :=
  blob_inv (obj s) /\
  allocations (trace s) = (frees (trace s) + 1 + live_blob (obj s))%nat.

(** A kernel with no memory left. *)
Definition out_of_memory : Sim.t := Sim.mk 0 [false] 0 0 0.

Section Emits.

Context {K O : Type} (P : event -> bool).

Lemma emits_ret {A : Type} (a : A) (s : state K O) : emits P (ret a) s.
Proof. exists []. rewrite app_nil_r. split; reflexivity. Qed.

Lemma emits_get (s : state K O) : emits P get s.
Proof. exists []. rewrite app_nil_r. split; reflexivity. Qed.

Lemma emits_modify (f : O -> O) (s : state K O) : emits P (modify f) s.
Proof. exists []. cbn. rewrite app_nil_r. split; reflexivity. Qed.

Lemma emits_call {A : Type} (f : K -> K * A) (e : A -> event)
      (s : state K O) :
  (forall a, P (e a) = true) -> emits P (call f e) s.
Proof.
  intros He. eexists. split; [reflexivity|]. cbn. rewrite He. reflexivity.
Qed.

Lemma emits_call_ (f : K -> K) (e : event) (s : state K O) :
  P e = true -> emits P (call_ f e) s.
Proof.
  intros He. eexists. split; [reflexivity|]. cbn. rewrite He. reflexivity.
Qed.

Lemma emits_bind {A B : Type} (m : M K O A) (f : A -> M K O B)
      (s : state K O) :
  emits P m s ->
  (forall a s', emits P (f a) s') ->
  emits P (bind m f) s.
Proof.
  intros (evs1 & Ht1 & Hp1) Hf.
  destruct (Hf (result m s) (after m s)) as (evs2 & Ht2 & Hp2).
  exists (evs1 ++ evs2). split.
  - unfold after, result, bind in *. rewrite Ht2, Ht1.
    symmetry. apply app_assoc.
  - rewrite forallb_app, Hp1, Hp2. reflexivity.
Qed.

End Emits.

(** Goes through a function of the driver call by call. *)
Ltac emits_step :=
  match goal with
  | |- emits _ (bind _ _) _ => apply emits_bind; [|intros ? ?]
  | |- emits _ (ret _) _ => apply emits_ret
  | |- emits _ get _ => apply emits_get
  | |- emits _ (modify _) _ => apply emits_modify
  | |- emits _ (call _ _) _ => apply emits_call; intros; reflexivity
  | |- emits _ (call_ _ _) _ => apply emits_call_; reflexivity
  | |- emits _ (match ?x with _ => _ end) _ => destruct x
  end.

Section Coverage.

Context {K : Type} {kernel : Kernel K}.

Hypothesis PAGE_SIZE_range : 0 < PAGE_SIZE <= INT_MAX.

Implicit Types (s : state K dtbocfg_overlay_item) (buf : list byte).

Lemma run_op_emits (o : op) s : emits attribute_event (run_op o) s.
Proof.
  destruct o; cbn [run_op];
    unfold dtbocfg_overlay_item_status_store, dtbocfg_overlay_item_status_show,
      dtbocfg_overlay_item_dtbo_store, dtbocfg_overlay_item_dtbo_show,
      dtbocfg_overlay_item_create, dtbocfg_overlay_item_release,
      dtbo_store_copy, kmemdup;
    repeat emits_step.
Qed.

(** X12: whatever attribute operations run on an item, they never free the
    item and never register or unregister anything: all that they add to
    the trace are calls of the device tree, of the overlays and of the
    allocator for the blob. *)
Theorem attribute_ops_never_free_item :
  forall (l : list op) s,
  exists evs : list event,
    trace (after (run_ops l) s) = trace s ++ evs /\
    forallb attribute_event evs = true.
Proof.
  intros l s. change (emits attribute_event (run_ops l) s). revert s.
  induction l as [|o l IH]; intros s; cbn [run_ops].
  - apply emits_ret.
  - apply emits_bind; [apply run_op_emits | intros _ s'; apply IH].
Qed.

(** ** Writes of the blob, case by case *)

(** All that [dtbocfg_overlay_item_dtbo_store] does.  It is refused when the
    item has a size and an id.  Otherwise a buffer of positive size is
    freed, the allocation is tried in the kernel so reached, and the item
    gets the copy and its size, or no blob and the size 0. *)
Lemma dtbo_store_spec buf (count : Z) s :
  let m := dtbocfg_overlay_item_dtbo_store buf count in
  if (0 <? dtbo_size (obj s)) && (0 <=? id (obj s)) then
    result m s = - EPERM /\ after m s = s
  else
    let freed :=
      if 0 <? dtbo_size (obj s) then [ev_kfree (mem_dtbo (dtbo (obj s)))]
      else [] in
    let k1 :=
      if 0 <? dtbo_size (obj s) then kfree (kern s) (mem_dtbo (dtbo (obj s)))
      else kern s in
    let ok := snd (kmalloc k1 count) in
    trace (after m s) = trace s ++ freed ++ [ev_kmalloc count ok] /\
    id (obj (after m s)) = id (obj s) /\
    node (obj (after m s)) = node (obj s) /\
    item (obj (after m s)) = item (obj s) /\
    if ok then
      result m s = to_ssize_t count /\
      dtbo (obj (after m s)) = Some (firstn (Z.to_nat count) buf) /\
      dtbo_size (obj (after m s)) = to_int count
    else
      result m s = - ENOMEM /\
      dtbo (obj (after m s)) = None /\ dtbo_size (obj (after m s)) = 0.
Proof.
  unfold_store. run.
  destruct (0 <? dtbo_size (obj s)); [destruct (0 <=? id (obj s))|];
    cbn [andb]; run; [split; reflexivity| |];
    destruct (kmalloc _ _) as [k' [|]]; run;
    cbn [id node item dtbo dtbo_size set_dtbo set_dtbo_size];
    rewrite <- ?app_assoc; repeat split.
Qed.

(** X11: the two attributes are independent.  A write of the blob, whatever
    it returns, leaves the id, the tree and the name of the item as they
    were, so that it never changes what the status reads; a write of the
    status, whatever its input, leaves the blob and its size as they were. *)
Theorem attributes_are_independent :
  forall s buf (count : Z),
    let s1 := after (dtbocfg_overlay_item_dtbo_store buf count) s in
    let s2 := after (dtbocfg_overlay_item_status_store buf count) s in
    (id (obj s1) = id (obj s) /\ node (obj s1) = node (obj s) /\
     item (obj s1) = item (obj s) /\
     result dtbocfg_overlay_item_status_show s1 =
     result dtbocfg_overlay_item_status_show s) /\
    (dtbo (obj s2) = dtbo (obj s) /\ dtbo_size (obj s2) = dtbo_size (obj s) /\
     forall page : option (list byte),
       result (dtbocfg_overlay_item_dtbo_show page) s2 =
       result (dtbocfg_overlay_item_dtbo_show page) s).
Proof.
  intros s buf count s1 s2. subst s1 s2. split.
  - assert (Hkeep :
              id (obj (after (dtbocfg_overlay_item_dtbo_store buf count) s)) =
              id (obj s) /\
              node (obj (after (dtbocfg_overlay_item_dtbo_store buf count) s)) =
              node (obj s) /\
              item (obj (after (dtbocfg_overlay_item_dtbo_store buf count) s)) =
              item (obj s)).
    { pose proof (dtbo_store_spec buf count s) as Hspec. cbn zeta in Hspec.
      destruct ((0 <? dtbo_size (obj s)) && (0 <=? id (obj s))).
      - destruct Hspec as [_ ->]. repeat split.
      - destruct Hspec as (_ & Hid & Hnode & Hitem & _). repeat split; assumption. }
    destruct Hkeep as (Hid & Hnode & Hitem). repeat split; try assumption.
    unfold dtbocfg_overlay_item_status_show. run. rewrite Hid. reflexivity.
  - destruct (status_store_blob buf count s) as [Hd Hs]. cbn zeta in Hd, Hs.
    repeat split; try assumption.
    intros page. unfold dtbocfg_overlay_item_dtbo_show. run.
    rewrite Hd, Hs.
    destruct (dtbo (obj s)); [destruct (_ <? _)|]; reflexivity.
Qed.

(** X4: a write of the blob that fails for lack of memory does not keep the
    blob that was: the item is left with no blob and the size 0, and a read
    returns 0 bytes.  The id is as before. *)
Theorem dtbo_store_enomem_loses_blob :
  forall s buf (count : Z) (page : option (list byte)),
    0 <= count < 2 ^ 63 ->
    result (dtbocfg_overlay_item_dtbo_store buf count) s = - ENOMEM ->
    let s' := after (dtbocfg_overlay_item_dtbo_store buf count) s in
    dtbo (obj s') = None /\ dtbo_size (obj s') = 0 /\
    id (obj s') = id (obj s) /\
    result (dtbocfg_overlay_item_dtbo_show page) s' = (0, page).
Proof.
  intros s buf count page Hcount Hres s'. subst s'.
  pose proof (dtbo_store_spec buf count s) as Hspec. cbn zeta in Hspec.
  destruct ((0 <? dtbo_size (obj s)) && (0 <=? id (obj s))).
  - destruct Hspec as [Hperm _]. rewrite Hperm in Hres. discriminate.
  - destruct Hspec as (_ & Hid & _ & _ & Hcase).
    destruct (snd (kmalloc _ count)).
    + destruct Hcase as (Hok & _). rewrite Hok, to_ssize_t_size in Hres by lia.
      unfold ENOMEM in Hres. lia.
    + destruct Hcase as (_ & Hd & Hs). repeat split; try assumption.
      unfold dtbocfg_overlay_item_dtbo_show. run. rewrite Hd. reflexivity.
Qed.

(** A successful write of a buffer with its length, to an item without an
    id, stores the buffer. *)
Lemma dtbo_store_stores buf s :
  let count := Z.of_nat (List.length buf) in
  let m := dtbocfg_overlay_item_dtbo_store buf count in
  id (obj s) < 0 ->
  0 <= result m s ->
  let freed :=
    if 0 <? dtbo_size (obj s) then [ev_kfree (mem_dtbo (dtbo (obj s)))]
    else [] in
  trace (after m s) = trace s ++ freed ++ [ev_kmalloc count true] /\
  id (obj (after m s)) = id (obj s) /\
  dtbo (obj (after m s)) = Some buf /\
  dtbo_size (obj (after m s)) = to_int count.
Proof.
  intros count m Hid Hres freed. subst count m freed.
  pose proof (dtbo_store_spec buf (Z.of_nat (List.length buf)) s) as Hspec.
  cbn zeta in Hspec.
  destruct (Z.leb_spec 0 (id (obj s))); [lia|].
  rewrite andb_false_r in Hspec.
  destruct Hspec as (Ht & Hkeep & _ & _ & Hcase).
  destruct (snd (kmalloc _ _)).
  - destruct Hcase as (_ & Hd & Hs). rewrite firstn_length_all in Hd.
    repeat split; assumption.
  - destruct Hcase as (Hfail & _). rewrite Hfail in Hres.
    unfold ENOMEM in Hres. lia.
Qed.

(** X8: a second write of the blob replaces the first.  When both
    succeed on an item without an id, a read returns the second buffer
    whole; the first buffer is handed to [kfree] before the allocation of
    the second when it had a positive size, and not at all when it was
    empty. *)
Theorem dtbo_store_overwrites :
  forall s (b1 b2 page : list byte),
    let n1 := Z.of_nat (List.length b1) in
    let n2 := Z.of_nat (List.length b2) in
    let s1 := after (dtbocfg_overlay_item_dtbo_store b1 n1) s in
    let s2 := after (dtbocfg_overlay_item_dtbo_store b2 n2) s1 in
    n1 <= INT_MAX ->
    n2 <= PAGE_SIZE ->
    id (obj s) < 0 ->
    0 <= result (dtbocfg_overlay_item_dtbo_store b1 n1) s ->
    0 <= result (dtbocfg_overlay_item_dtbo_store b2 n2) s1 ->
    fst (result (dtbocfg_overlay_item_dtbo_show (Some page)) s2) = n2 /\
    delivered (result (dtbocfg_overlay_item_dtbo_show (Some page)) s2) = b2 /\
    trace s2 =
    trace s1 ++
    (if 0 <? n1 then [ev_kfree (mem_dtbo (Some b1))] else []) ++
    [ev_kmalloc n2 true].
Proof.
  intros s b1 b2 page n1 n2 s1 s2 Hn1 Hn2 Hid Hok1 Hok2.
  destruct (dtbo_store_stores b1 s Hid Hok1) as (_ & Hid1 & Hd1 & Hs1).
  fold n1 s1 in Hid1, Hd1, Hs1.
  assert (Hid1' : id (obj s1) < 0) by lia.
  destruct (dtbo_store_stores b2 s1 Hid1' Hok2) as (Ht2 & _ & Hd2 & Hs2).
  fold n2 s2 in Ht2, Hd2, Hs2.
  assert (H0n1 : 0 <= n1) by (subst n1; lia).
  assert (H0n2 : 0 <= n2) by (subst n2; lia).
  rewrite to_int_small in Hs1 by lia.
  rewrite to_int_small in Hs2 by lia.
  rewrite Hs1, Hd1 in Ht2.
  rewrite dtbo_show_result.
  - rewrite Hd2. fold n2.
    destruct (Z.ltb_spec PAGE_SIZE n2); [lia|]. cbn [fst option_map].
    repeat split; [apply delivered_memcpy | exact Ht2].
  - unfold blob_inv, blob_length. rewrite Hd2, Hs2. fold n2. lia.
Qed.

(** ** Applying, case by case *)

(** What [dtbocfg_overlay_item_create] adds to the trace.  The first call is
    the unflattening of the blob of the item.  Nothing is destroyed.  When 0
    is returned, one overlay was created, and it is the id of the item;
    otherwise none was created and the id is as before. *)
Lemma create_events s :
  exists (nd : option device_node) (evs : list event),
    trace (after dtbocfg_overlay_item_create s) =
    trace s ++ ev_unflatten (dtbo (obj s)) nd :: evs /\
    released_ids evs = [] /\
    if result dtbocfg_overlay_item_create s =? 0 then
      created_ids evs = [id (obj (after dtbocfg_overlay_item_create s))] /\
      0 <= id (obj (after dtbocfg_overlay_item_create s))
    else
      created_ids evs = [] /\
      id (obj (after dtbocfg_overlay_item_create s)) = id (obj s).
Proof.
  unfold dtbocfg_overlay_item_create. run.
  destruct (of_fdt_unflatten_tree _ _ _) as [k1 [nd|]]; run; cbn [id set_node].
  2:{ exists None, []. repeat split. }
  destruct (of_resolve_phandles _ _) as [k2 r]; run.
  destruct (Z.eqb_spec r 0) as [->|Hr]; run; cbn [id set_node].
  2:{ eexists _, _. split; [rewrite <- !app_assoc; reflexivity|].
      destruct (Z.eqb_spec r 0); [contradiction|]. repeat split. }
  destruct (of_overlay_create _ _) as [k3 r']; run.
  destruct (Z.ltb_spec r' 0) as [Hneg|Hpos]; run; cbn [id set_node set_id];
    (eexists _, _; split; [rewrite <- !app_assoc; reflexivity|]);
    cbn [created_ids released_ids flat_map app].
  - destruct (Z.eqb_spec r' 0); [lia|].
    destruct (Z.ltb_spec r' 0); [|lia]. repeat split.
  - destruct (Z.ltb_spec r' 0); [lia|]. repeat split. exact Hpos.
Qed.

(** X14: [dtbocfg_overlay_item_create] returns 0 exactly when the kernel has
    created an overlay in this call, and the id of the item is then the id
    of that overlay.  When it returns an error, whichever of the three
    steps has failed, no overlay was created and the id is as before.  In
    both cases the first call is the unflattening of the blob of the item,
    nothing is destroyed, and the blob stays as it was. *)
Theorem create_reports_overlay :
  forall s,
    let r := result dtbocfg_overlay_item_create s in
    let s' := after dtbocfg_overlay_item_create s in
    exists (nd : option device_node) (evs : list event),
      trace s' = trace s ++ ev_unflatten (dtbo (obj s)) nd :: evs /\
      released_ids evs = [] /\
      (if r =? 0 then created_ids evs = [id (obj s')] /\ 0 <= id (obj s')
       else created_ids evs = [] /\ id (obj s') = id (obj s)) /\
      dtbo (obj s') = dtbo (obj s) /\ dtbo_size (obj s') = dtbo_size (obj s).
Proof.
  intros s r s'. subst r s'.
  destruct (create_events s) as (nd & evs & Ht & Hrel & Hcase).
  destruct (create_blob s) as (Hd & Hs & _).
  exists nd, evs. repeat split; assumption.
Qed.

(** The kernel calls of [dtbocfg_overlay_item_create].  The blob of the
    item is unflattened through [overlay->node], which is not cleared
    before.  When the pointer is [NULL] after that, nothing else is called
    and the id is as before.  Otherwise the flag is set on the node that
    the pointer holds, its phandles are resolved and, when that has
    returned 0, the overlay is created, all on that node. *)
Lemma create_calls s :
  let u := of_fdt_unflatten_tree (kern s) (dtbo (obj s)) (node (obj s)) in
  let s' := after dtbocfg_overlay_item_create s in
  node (obj s') = snd u /\
  match snd u with
  | None =>
      trace s' = trace s ++ [ev_unflatten (dtbo (obj s)) None] /\
      id (obj s') = id (obj s)
  | Some nd =>
      let resolved := of_resolve_phandles (of_node_set_flag (fst u) nd) nd in
      trace s' =
      trace s ++
      ev_unflatten (dtbo (obj s)) (Some nd) :: ev_set_flag nd ::
      ev_resolve_phandles nd (snd resolved) ::
      (if snd resolved =? 0
       then [ev_overlay_create nd (snd (of_overlay_create (fst resolved) nd))]
       else [])
  end.
Proof.
  unfold dtbocfg_overlay_item_create. run.
  destruct (of_fdt_unflatten_tree _ _ _) as [k1 [nd|]]; run;
    cbn [node id set_node]; [|repeat split].
  destruct (of_resolve_phandles _ _) as [k2 r]; run.
  destruct (r =? 0); run; cbn [node set_node];
    [|rewrite <- !app_assoc; split; reflexivity].
  destruct (of_overlay_create _ _) as [k3 r']; run.
  destruct (r' <? 0); run; cbn [node set_node set_id];
    rewrite <- !app_assoc; split; reflexivity.
Qed.

(** X13: what an enabling write of the status calls after a write of the
    blob.  After a successful write of [b] to an item without an id, the
    first call is the unflattening of exactly [b], made through
    [overlay->node] as it was before the write of the blob: the driver does
    not clear it.  When the pointer is [NULL] after that call, nothing else
    is called and the id stays as it was.  Otherwise the flag is set on the
    node that the pointer then holds, its phandles are resolved and, when
    that has returned 0, the overlay is created, on that node and in this
    order; nothing else is called. *)
Theorem enable_after_store_calls :
  forall s (b buf : list byte) (count : Z),
    let n := Z.of_nat (List.length b) in
    let s1 := after (dtbocfg_overlay_item_dtbo_store b n) s in
    let s2 := after (dtbocfg_overlay_item_status_store buf count) s1 in
    let u := of_fdt_unflatten_tree (kern s1) (Some b) (node (obj s)) in
    id (obj s) < 0 ->
    0 <= result (dtbocfg_overlay_item_dtbo_store b n) s ->
    fst (kstrtoul buf 10) = 0 ->
    snd (kstrtoul buf 10) <> 0 ->
    node (obj s2) = snd u /\
    match snd u with
    | None =>
        trace s2 = trace s1 ++ [ev_unflatten (Some b) None] /\
        id (obj s2) = id (obj s)
    | Some nd =>
        let resolved := of_resolve_phandles (of_node_set_flag (fst u) nd) nd in
        trace s2 =
        trace s1 ++
        ev_unflatten (Some b) (Some nd) :: ev_set_flag nd ::
        ev_resolve_phandles nd (snd resolved) ::
        (if snd resolved =? 0
         then [ev_overlay_create nd (snd (of_overlay_create (fst resolved) nd))]
         else [])
    end.
Proof.
  intros s b buf count n s1 s2 u Hid Hok Hstatus Hvalue.
  destruct (dtbo_store_stores b s Hid Hok) as (_ & Hid1 & Hd1 & _).
  fold n s1 in Hid1, Hd1.
  assert (Hnode : node (obj s1) = node (obj s)).
  { pose proof (dtbo_store_spec b n s) as Hspec. cbn zeta in Hspec.
    destruct (Z.leb_spec 0 (id (obj s))); [lia|].
    rewrite andb_false_r in Hspec.
    destruct Hspec as (_ & _ & Hkeep & _). exact Hkeep. }
  destruct (status_store_enable buf count s1 Hstatus Hvalue) as [_ Ha].
  fold s2 in Ha. destruct (Z.ltb_spec (id (obj s1)) 0); [|lia].
  pose proof (create_calls s1) as Hcalls. cbn zeta in Hcalls.
  rewrite <- Ha, Hd1, Hnode, Hid1 in Hcalls. exact Hcalls.
Qed.

(** X5: when the apply succeeds during an enabling write of the status to an
    item without an id, the write returns the size written, the item is
    applied under the id of the overlay that the kernel has created, the
    status reads as 1, and the blob is as it was. *)
Theorem status_store_enable_applies :
  forall s buf (count : Z),
    id (obj s) < 0 ->
    fst (kstrtoul buf 10) = 0 ->
    snd (kstrtoul buf 10) <> 0 ->
    result dtbocfg_overlay_item_create s = 0 ->
    let s' := after (dtbocfg_overlay_item_status_store buf count) s in
    result (dtbocfg_overlay_item_status_store buf count) s = to_ssize_t count /\
    Applied (obj s') /\
    created_ids (trace s') = created_ids (trace s) ++ [id (obj s')] /\
    released_ids (trace s') = released_ids (trace s) /\
    result dtbocfg_overlay_item_status_show s' = (2, [x31; x0a]) /\
    dtbo (obj s') = dtbo (obj s) /\ dtbo_size (obj s') = dtbo_size (obj s).
Proof.
  intros s buf count Hid Hstatus Hvalue Hok s'. subst s'.
  destruct (status_store_enable buf count s Hstatus Hvalue) as [Hres Ha].
  rewrite Hres, Ha. destruct (Z.ltb_spec (id (obj s)) 0); [|lia].
  destruct (create_events s) as (nd & evs & Ht & Hrel & Hcase).
  rewrite Hok in Hcase. cbn [Z.eqb] in Hcase. destruct Hcase as [Hcr Hpos].
  destruct (create_blob s) as (Hd & Hs & _). cbn zeta in Hd, Hs.
  split; [reflexivity|]. split; [exact Hpos|].
  rewrite Ht. unfold created_ids, released_ids in *.
  rewrite !flat_map_app. cbn [flat_map app]. rewrite Hcr, Hrel, app_nil_r.
  repeat split; try assumption.
  unfold dtbocfg_overlay_item_status_show. run.
  destruct (Z.leb_spec 0 (id (obj (snd (dtbocfg_overlay_item_create s)))));
    [reflexivity|].
  unfold after in Hpos. lia.
Qed.

(** X9: [dtbocfg_overlay_item_release] destroys the overlay of the item
    when the item has an id, and only then; afterwards the item has no id,
    and releasing once more does nothing at all. *)
Theorem item_release_idempotent :
  forall s,
    let s1 := after dtbocfg_overlay_item_release s in
    trace s1 =
    trace s ++
    (if 0 <=? id (obj s) then [ev_overlay_destroy (id (obj s))] else []) /\
    id (obj s1) < 0 /\
    after dtbocfg_overlay_item_release s1 = s1.
Proof.
  intros s. unfold dtbocfg_overlay_item_release. run.
  destruct (Z.leb_spec 0 (id (obj s))) as [Hid|Hid]; run; cbn [id set_id].
  - repeat split; try lia.
  - rewrite app_nil_r. destruct (Z.leb_spec 0 (id (obj s))); [lia|].
    repeat split. exact Hid.
Qed.

(** X6: enabling and then disabling brings an item back.  When the apply
    succeeds in an enabling write to an item without an id, a disabling
    write after it destroys the overlay just created, and nothing else;
    the item has the id -1 again, its status reads as 0 and its blob is as
    it was before the two writes. *)
Theorem enable_disable_roundtrip :
  forall s (buf1 buf0 : list byte) (count1 count0 : Z),
    let s1 := after (dtbocfg_overlay_item_status_store buf1 count1) s in
    let s2 := after (dtbocfg_overlay_item_status_store buf0 count0) s1 in
    id (obj s) < 0 ->
    fst (kstrtoul buf1 10) = 0 ->
    snd (kstrtoul buf1 10) <> 0 ->
    fst (kstrtoul buf0 10) = 0 ->
    snd (kstrtoul buf0 10) = 0 ->
    result dtbocfg_overlay_item_create s = 0 ->
    trace s2 = trace s1 ++ [ev_overlay_destroy (id (obj s1))] /\
    id (obj s2) = -1 /\
    result dtbocfg_overlay_item_status_show s2 = (2, [x30; x0a]) /\
    dtbo (obj s2) = dtbo (obj s) /\ dtbo_size (obj s2) = dtbo_size (obj s).
Proof.
  intros s buf1 buf0 count1 count0 s1 s2 Hid Hs1 Hv1 Hs0 Hv0 Hok.
  destruct (status_store_enable buf1 count1 s Hs1 Hv1) as [_ Ha1].
  destruct (Z.ltb_spec (id (obj s)) 0); [|lia].
  destruct (create_id s) as (Hpos & _). specialize (Hpos Hok).
  destruct (create_blob s) as (Hd & Hs & _). cbn zeta in Hpos, Hd, Hs.
  fold s1 in Ha1. rewrite <- Ha1 in Hpos, Hd, Hs.
  destruct (status_store_disable buf0 count0 s1 Hs0 Hv0) as [_ Ha0].
  fold s2 in Ha0. destruct (Z.leb_spec 0 (id (obj s1))); [|lia].
  rewrite Ha0, <- Hd, <- Hs.
  unfold dtbocfg_overlay_item_release, dtbocfg_overlay_item_status_show. run.
  destruct (Z.leb_spec 0 (id (obj s1))); [|lia]. run. cbn [id dtbo dtbo_size set_id].
  repeat split.
Qed.

(** X10: [dtbocfg_overlay_release] on any item: the overlay is destroyed
    when the item has an id, the blob is freed when there is one, and the
    item is freed last, in this order and each once.  An item without an id
    is freed without a call of [of_overlay_destroy]. *)
Theorem overlay_release_frees_all :
  forall s,
    let s' := after dtbocfg_overlay_release s in
    trace s' =
    trace s ++
    (if 0 <=? id (obj s) then [ev_overlay_destroy (id (obj s))] else []) ++
    match dtbo (obj s) with
    | Some d => [ev_kfree (mem_dtbo (Some d))]
    | None => []
    end ++ [ev_kfree mem_overlay] /\
    released_ids (trace s') =
    released_ids (trace s) ++ held_list (held_id (obj s)) /\
    id (obj s') < 0 /\ dtbo (obj s') = None.
Proof.
  intros s. unfold dtbocfg_overlay_release, dtbocfg_overlay_item_release.
  unfold held_id, released_ids. run.
  destruct (Z.leb_spec 0 (id (obj s))) as [Hid|Hid]; run; cbn [dtbo id set_id];
    destruct (dtbo (obj s)) as [d|] eqn:Hd; run;
    cbn [dtbo id set_id set_dtbo set_dtbo_size held_list];
    rewrite <- ?app_assoc, ?flat_map_app; cbn [flat_map app];
    rewrite ?app_nil_r; repeat split; try assumption; lia.
Qed.

(** X3: the only error of the status store.  Input that [kstrtoul] rejects,
    with whichever status, is answered with [-EPERM], and nothing changes:
    not the item, and no kernel call is made.  Input that it takes is
    answered with the size written. *)
Theorem status_store_rejects_malformed :
  forall s buf (count : Z),
    let r := result (dtbocfg_overlay_item_status_store buf count) s in
    if fst (kstrtoul buf 10) =? 0 then r = to_ssize_t count
    else r = - EPERM /\
         after (dtbocfg_overlay_item_status_store buf count) s = s.
Proof.
  intros s buf count r. subst r.
  destruct (Z.eqb_spec (fst (kstrtoul buf 10)) 0) as [Hstatus|Hstatus].
  - destruct (Z.eq_dec (snd (kstrtoul buf 10)) 0) as [Hvalue|Hvalue].
    + apply (status_store_disable buf count s Hstatus Hvalue).
    + apply (status_store_enable buf count s Hstatus Hvalue).
  - apply (status_store_malformed buf count s Hstatus).
Qed.

(** X7: the invariant of the blob buffer holds all through the life of an
    item.  From its making on, under every sequence of operations in which
    each write of the blob passes a buffer with its length, the size of the
    item is the length of its blob; so that a read either fails with
    [-EINVAL] or returns the length of the blob and delivers it whole, never
    a part of it. *)
Theorem blob_inv_kept :
  forall (name : string) (k : K) (l : list op) (page : list byte) s,
    made name k = Some s ->
    Forall well_formed_op l ->
    let s' := after (run_ops l) s in
    let r := result (dtbocfg_overlay_item_dtbo_show (Some page)) s' in
    blob_inv (obj s') /\
    (fst r = - EINVAL \/
     fst r = blob_length (obj s') /\ delivered r = blob_bytes (obj s')).
Proof.
  intros name k l page s Hmade Hl s' r. subst s' r.
  destruct (made_blob_inv name k s Hmade) as [_ Hinv].
  pose proof (run_ops_blob_inv l s Hl Hinv) as Hinv'.
  split; [exact Hinv'|].
  rewrite (dtbo_show_result _ _ Hinv'). unfold blob_length, blob_bytes.
  destruct (dtbo (obj (after (run_ops l) s))) as [d|].
  - destruct (PAGE_SIZE <? Z.of_nat (List.length d)); cbn [fst option_map].
    + left. reflexivity.
    + right. split; [reflexivity | apply delivered_memcpy].
  - right. split; reflexivity.
Qed.

(** ** Making an item *)

(** X1: [dtbocfg_overlay_group_make_item] allocates the item and, when that
    has succeeded, calls [config_item_init_type_name] with the name; it
    makes no other kernel call.  When the allocation fails it returns
    [-ENOMEM].  Otherwise it returns an item with the name asked for, the id
    -1, no blob, the size 0 and no tree: its status reads as 0 and a read of
    its blob returns 0 bytes. *)
Theorem make_item_fresh :
  forall (name : string) (s : state K unit),
    let r := result (dtbocfg_overlay_group_make_item name) s in
    let s' := after (dtbocfg_overlay_group_make_item name) s in
    if snd (kmalloc (kern s) sizeof_overlay) then
      trace s' =
      trace s ++ [ev_kmalloc sizeof_overlay true; ev_item_init name] /\
      exists overlay : dtbocfg_overlay_item,
        r = inr overlay /\ ci_name (item overlay) = name /\
        id overlay = -1 /\ dtbo overlay = None /\ dtbo_size overlay = 0 /\
        node overlay = None /\
        forall (k : K) (tr : list event) (page : option (list byte)),
          result dtbocfg_overlay_item_status_show (mk_state k tr overlay) =
          (2, [x30; x0a]) /\
          result (dtbocfg_overlay_item_dtbo_show page) (mk_state k tr overlay) =
          (0, page)
    else
      trace s' = trace s ++ [ev_kmalloc sizeof_overlay false] /\
      r = inl (- ENOMEM).
Proof.
  intros name s. unfold dtbocfg_overlay_group_make_item. run.
  destruct (kmalloc (kern s) sizeof_overlay) as [k' [|]]; run.
  - split; [rewrite <- app_assoc; reflexivity|].
    eexists. split; [reflexivity|]. cbn. repeat split.
  - split; reflexivity.
Qed.

(** ** Module exit *)

(** X2: [dtbocfg_module_exit] unregisters the group and then the subsystem,
    after which nothing is registered, whatever was.  After an
    initialisation that has returned 0, both had been registered, so that
    exit undoes what initialisation did, in the inverse order. *)
Theorem module_init_exit :
  forall (s : state K unit) (r0 : bool * bool),
    let s' := after dtbocfg_module_exit s in
    let s1 := after dtbocfg_module_init s in
    let s2 := after dtbocfg_module_exit s1 in
    trace s' = trace s ++ [ev_unregister_group; ev_unregister_subsystem] /\
    registered r0 (trace s') = (false, false) /\
    (registered (false, false) (trace s) = (false, false) ->
     result dtbocfg_module_init s = 0 ->
     registered (false, false) (trace s1) = (true, true) /\
     trace s2 = trace s1 ++ [ev_unregister_group; ev_unregister_subsystem] /\
     registered (false, false) (trace s2) = (false, false)).
Proof.
  intros s r0 s' s1 s2.
  assert (Hexit : forall (t : state K unit) (r : bool * bool),
             trace (after dtbocfg_module_exit t) =
             trace t ++ [ev_unregister_group; ev_unregister_subsystem] /\
             registered r (trace (after dtbocfg_module_exit t)) =
             (false, false)).
  { intros t r. unfold dtbocfg_module_exit. run. rewrite <- app_assoc.
    split; [reflexivity|]. rewrite registered_app. reflexivity. }
  destruct (Hexit s r0) as [Ht Hr]. split; [exact Ht|]. split; [exact Hr|].
  intros Hreg Hok. destruct (Hexit s1 (false, false)) as [Ht1 Hr1].
  split; [|split; assumption].
  subst s1. revert Hok. clear - Hreg. unfold dtbocfg_module_init. run.
  destruct (configfs_register_subsystem _) as [k2 rs]; run.
  destruct (Z.eqb_spec rs 0) as [->|Hrs]; run; [|intros Hz; contradiction].
  destruct (configfs_register_group k2) as [k3 rg]; run.
  destruct (Z.eqb_spec rg 0) as [->|Hrg]; run; [|intros Hz; contradiction].
  intros _. rewrite !registered_app, Hreg. reflexivity.
Qed.

(** ** The memory of an item *)

Lemma allocations_app (tr1 tr2 : list event) :
  allocations (tr1 ++ tr2) = (allocations tr1 + allocations tr2)%nat.
Proof. unfold allocations. rewrite filter_app. apply length_app. Qed.

Lemma frees_app (tr1 tr2 : list event) :
  frees (tr1 ++ tr2) = (frees tr1 + frees tr2)%nat.
Proof. unfold frees. rewrite filter_app. apply length_app. Qed.

Lemma memory_quiet_events (evs : list event) :
  forallb memory_quiet evs = true -> allocations evs = 0%nat /\ frees evs = 0%nat.
Proof.
  unfold allocations, frees.
  induction evs as [|e evs IH]; cbn [forallb filter]; [split; reflexivity|].
  intros Hq. apply andb_prop in Hq. destruct Hq as [He Hq].
  unfold memory_quiet in He. apply andb_prop in He. destruct He as [Ha Hf].
  apply negb_true_iff in Ha, Hf. rewrite Ha, Hf. apply IH. exact Hq.
Qed.

Lemma status_store_memory_quiet buf (count : Z) s :
  emits memory_quiet (dtbocfg_overlay_item_status_store buf count) s.
Proof.
  unfold dtbocfg_overlay_item_status_store, dtbocfg_overlay_item_create,
    dtbocfg_overlay_item_release.
  repeat emits_step.
Qed.

(** Under the invariant of the buffer, the blob has a positive size exactly
    when its [kfree] frees memory. *)
Lemma live_blob_size (o : dtbocfg_overlay_item) :
  blob_inv o ->
  live_blob o = (if 0 <? dtbo_size o then 1%nat else 0%nat) /\
  release_of_memory (ev_kfree (mem_dtbo (dtbo o))) = (0 <? dtbo_size o).
Proof.
  unfold blob_inv, blob_length, live_blob. intros [Hsize _]. rewrite Hsize.
  destruct (dtbo o) as [[|x d]|]; cbn [release_of_memory List.length];
    split; try reflexivity;
    destruct (Z.ltb_spec 0 (Z.of_nat (S (List.length d)))); try reflexivity; lia.
Qed.

Lemma status_store_memory_inv buf (count : Z) s :
  memory_inv s ->
  memory_inv (after (dtbocfg_overlay_item_status_store buf count) s).
Proof.
  unfold memory_inv, blob_inv, blob_length, live_blob. intros [Hinv Hmem].
  destruct (status_store_blob buf count s) as [Hd Hs]. cbn zeta in Hd, Hs.
  destruct (status_store_memory_quiet buf count s) as (evs & Ht & Hq).
  destruct (memory_quiet_events evs Hq) as [Ha Hf].
  rewrite Hd, Hs, Ht, allocations_app, frees_app, Ha, Hf.
  split; [exact Hinv | lia].
Qed.

Lemma dtbo_store_memory_inv buf s :
  let count := Z.of_nat (List.length buf) in
  count <= INT_MAX ->
  memory_inv s ->
  memory_inv (after (dtbocfg_overlay_item_dtbo_store buf count) s).
Proof.
  intros count Hmax [Hinv Hmem]. subst count.
  split; [apply dtbo_store_blob_inv; assumption|].
  destruct (live_blob_size (obj s) Hinv) as [Hlive Hfree].
  pose proof (dtbo_store_spec buf (Z.of_nat (List.length buf)) s) as Hspec.
  cbn zeta in Hspec.
  destruct ((0 <? dtbo_size (obj s)) && (0 <=? id (obj s))).
  - destruct Hspec as [_ ->]. exact Hmem.
  - destruct Hspec as (Ht & _ & _ & _ & Hcase).
    rewrite Ht, !allocations_app, !frees_app, Hmem, Hlive.
    generalize (frees (trace s)). intros held.
    unfold allocations, frees, live_blob.
    destruct (0 <? dtbo_size (obj s)); cbn [filter allocation app List.length];
      rewrite ?Hfree; cbn [List.length];
      destruct (snd (kmalloc _ _));
      destruct Hcase as (_ & -> & _); rewrite ?firstn_length_all;
      cbn [filter allocation release_of_memory];
      destruct buf as [|x buf];
      try (destruct (Z.ltb_spec 0 (Z.of_nat (List.length (x :: buf))));
           [|cbn [List.length] in *; lia]);
      cbn [Z.ltb Z.of_nat List.length Z.compare]; lia.
Qed.

Lemma run_ops_memory_inv (l : list op) :
  forall s,
    Forall well_formed_op l -> memory_inv s -> memory_inv (after (run_ops l) s).
Proof.
  induction l as [|o l IH]; intros s Hl Hinv; [exact Hinv|].
  inversion Hl as [|o' l' Ho Hl']; subst.
  cbn [run_ops]. unfold after, bind. apply IH; [exact Hl'|].
  destruct o as [buf count| |buf count|page]; cbn [run_op];
    unfold bind, ret; cbn [fst snd].
  - apply status_store_memory_inv. exact Hinv.
  - exact Hinv.
  - destruct Ho as [-> Hmax]. apply dtbo_store_memory_inv; assumption.
  - fold (after (dtbocfg_overlay_item_dtbo_show page) s).
    rewrite dtbo_show_after. exact Hinv.
Qed.

(** What [dtbocfg_overlay_release] adds to the trace. *)
Lemma overlay_release_events s :
  trace (after dtbocfg_overlay_release s) =
  trace s ++
  (if 0 <=? id (obj s) then [ev_overlay_destroy (id (obj s))] else []) ++
  match dtbo (obj s) with
  | Some d => [ev_kfree (mem_dtbo (Some d))]
  | None => []
  end ++ [ev_kfree mem_overlay].
Proof.
  unfold dtbocfg_overlay_release, dtbocfg_overlay_item_release. run.
  destruct (0 <=? id (obj s)); run; cbn [dtbo set_id];
    destruct (dtbo (obj s)) as [d|]; run; rewrite <- ?app_assoc; reflexivity.
Qed.

(** X15: the driver frees what it allocates.  During the life of an item,
    under operations as configfs issues them, the successful allocations of
    a positive size exceed the memory handed to [kfree] by what the item
    holds: itself and its blob, when that has a positive size.  When the
    life is over, all that was allocated has been freed, once; and so it is
    when the item could not be made. *)
Theorem life_balances_memory :
  forall (name : string) (k : K) (l : list op),
    0 < sizeof_overlay ->
    Forall well_formed_op l ->
    (forall s0,
       made name k = Some s0 ->
       let s := after (run_ops l) s0 in
       allocations (trace s) = (frees (trace s) + 1 + live_blob (obj s))%nat) /\
    let tr := trace (after (life name l) (mk_state k [] tt)) in
    allocations tr = frees tr.
Proof.
  intros name k l Hsize Hl.
  assert (Hrun : forall s0,
             made name k = Some s0 -> memory_inv (after (run_ops l) s0)).
  { intros s0 Hmade. apply run_ops_memory_inv; [exact Hl|].
    destruct (made_blob_inv name k s0 Hmade) as [_ Hinv].
    split; [exact Hinv|]. revert Hmade. clear - Hsize.
    unfold made, dtbocfg_overlay_group_make_item. run.
    destruct (kmalloc k sizeof_overlay) as [k' [|]]; cbn [fst snd];
      [|discriminate].
    intros [= <-]. unfold allocations, frees, live_blob.
    cbn [trace obj dtbo app filter allocation release_of_memory].
    destruct (Z.ltb_spec 0 sizeof_overlay); [reflexivity | lia]. }
  split; [intros s0 Hmade; apply (Hrun s0 Hmade)|].
  destruct (made name k) as [s0|] eqn:Hmade.
  - cbn zeta. rewrite (life_trace name k l s0 Hmade), overlay_release_events.
    destruct (Hrun s0 eq_refl) as [Hinv Hmem].
    rewrite !allocations_app, !frees_app, Hmem.
    unfold live_blob.
    destruct (0 <=? id (obj (after (run_ops l) s0)));
      destruct (dtbo (obj (after (run_ops l) s0))) as [[|x d]|];
      cbn; lia.
  - revert Hmade. unfold made, life, dtbocfg_overlay_group_make_item. run.
    destruct (kmalloc k sizeof_overlay) as [k' [|]]; cbn [fst snd];
      [discriminate|].
    intros _. reflexivity.
Qed.

End Coverage.

(** ** On the kernel [Sim] *)

Lemma module_init_exit_witness :
  result dtbocfg_module_init (mk_state Sim.boot [] tt) = 0 /\
  registered (false, false)
    (trace (after dtbocfg_module_init (mk_state Sim.boot [] tt))) =
  (true, true) /\
  registered (false, false)
    (trace (after dtbocfg_module_exit
                  (after dtbocfg_module_init (mk_state Sim.boot [] tt)))) =
  (false, false).
Proof.
  split; [reflexivity|].
  destruct (module_init_exit (mk_state Sim.boot [] tt) (false, false))
    as (_ & _ & Hround).
  destruct Hround as (Hinit & _ & Hexit).
  - reflexivity.
  - reflexivity.
  - split; [exact Hinit | exact Hexit].
Defined.

Lemma dtbo_store_enomem_loses_blob_witness :
  dtbo Sim.loaded = Some Sim.fdt /\
  result (dtbocfg_overlay_item_dtbo_store [x00] 1)
         (mk_state out_of_memory [] Sim.loaded) = - ENOMEM /\
  dtbo (obj (after (dtbocfg_overlay_item_dtbo_store [x00] 1)
                   (mk_state out_of_memory [] Sim.loaded))) = None.
Proof.
  split; [reflexivity|]. split; [reflexivity|].
  destruct (dtbo_store_enomem_loses_blob
              (mk_state out_of_memory [] Sim.loaded) [x00] 1 None)
    as (Hnone & _).
  - lia.
  - reflexivity.
  - exact Hnone.
Defined.

Lemma status_store_enable_applies_witness :
  Applied
    (obj (after (dtbocfg_overlay_item_status_store [x31] 1)
                (Sim.on Sim.loaded))) /\
  result dtbocfg_overlay_item_status_show
         (after (dtbocfg_overlay_item_status_store [x31] 1)
                (Sim.on Sim.loaded)) = (2, [x31; x0a]).
Proof.
  destruct (status_store_enable_applies (Sim.on Sim.loaded) [x31] 1)
    as (_ & Happlied & _ & _ & Hshow & _).
  - cbn. lia.
  - reflexivity.
  - cbn. discriminate.
  - reflexivity.
  - split; [exact Happlied | exact Hshow].
Defined.

Lemma enable_disable_roundtrip_witness :
  trace
    (after (dtbocfg_overlay_item_status_store [x30] 1)
           (after (dtbocfg_overlay_item_status_store [x31] 1)
                  (Sim.on Sim.loaded))) =
  trace (after (dtbocfg_overlay_item_status_store [x31] 1)
               (Sim.on Sim.loaded)) ++ [ev_overlay_destroy 0] /\
  dtbo
    (obj (after (dtbocfg_overlay_item_status_store [x30] 1)
                (after (dtbocfg_overlay_item_status_store [x31] 1)
                       (Sim.on Sim.loaded)))) = Some Sim.fdt.
Proof.
  destruct (enable_disable_roundtrip (Sim.on Sim.loaded) [x31] [x30] 1 1)
    as (Htrace & _ & _ & Hdtbo & _).
  - cbn. lia.
  - reflexivity.
  - cbn. discriminate.
  - reflexivity.
  - reflexivity.
  - reflexivity.
  - split; [exact Htrace | exact Hdtbo].
Defined.

Lemma blob_inv_kept_witness :
  blob_inv
    (obj (after (run_ops Sim.reapply)
                (mk_state Sim.boot [ev_kmalloc 128 true; ev_item_init "fpga0"]
                         Sim.fresh))).
Proof.
  destruct (blob_inv_kept
              "fpga0" Sim.boot Sim.reapply [x00]
              (mk_state Sim.boot [ev_kmalloc 128 true; ev_item_init "fpga0"]
                         Sim.fresh))
    as (Hinv & _).
  - reflexivity.
  - unfold Sim.reapply, INT_MAX. repeat constructor; cbn; lia.
  - exact Hinv.
Defined.

Lemma dtbo_store_overwrites_witness :
  delivered
    (result (dtbocfg_overlay_item_dtbo_show (Some [x00; x00; x00; x00; x00]))
            (after (dtbocfg_overlay_item_dtbo_store [x01; x02] 2)
                   (after (dtbocfg_overlay_item_dtbo_store Sim.fdt 4)
                          (Sim.on Sim.fresh)))) = [x01; x02] /\
  trace
    (after (dtbocfg_overlay_item_dtbo_store [x01; x02] 2)
           (after (dtbocfg_overlay_item_dtbo_store Sim.fdt 4)
                  (Sim.on Sim.fresh))) =
  trace (after (dtbocfg_overlay_item_dtbo_store Sim.fdt 4) (Sim.on Sim.fresh))
  ++ [ev_kfree (mem_dtbo (Some Sim.fdt)); ev_kmalloc 2 true].
Proof.
  destruct (dtbo_store_overwrites sim_page_size_range
              (Sim.on Sim.fresh) Sim.fdt [x01; x02] [x00; x00; x00; x00; x00])
    as (_ & Hread & Htrace).
  - unfold INT_MAX. cbn. lia.
  - cbn. lia.
  - cbn. lia.
  - cbn. lia.
  - cbn. lia.
  - split; [exact Hread | exact Htrace].
Defined.

Lemma enable_after_store_calls_witness :
  trace
    (after (dtbocfg_overlay_item_status_store [x31] 1)
           (after (dtbocfg_overlay_item_dtbo_store Sim.fdt 4)
                  (Sim.on Sim.fresh))) =
  trace (after (dtbocfg_overlay_item_dtbo_store Sim.fdt 4) (Sim.on Sim.fresh))
  ++ [ev_unflatten (Some Sim.fdt) (Some 1); ev_set_flag 1;
      ev_resolve_phandles 1 0; ev_overlay_create 1 0].
Proof.
  destruct (enable_after_store_calls (Sim.on Sim.fresh) Sim.fdt [x31] 1)
    as (_ & Hcalls).
  - cbn. lia.
  - cbn. lia.
  - reflexivity.
  - cbn. discriminate.
  - exact Hcalls.
Defined.

(** The tree of an earlier blob is applied in place of the blob stored: in
    the kernel [Sim.boot], where no allocation fails, a blob is stored and
    applied, released, and a byte that is no device tree is stored in its
    place.  The unflattening of that byte leaves [overlay->node] as it was,
    and the enabling write creates an overlay from the node of the first
    blob. *)
Example stale_tree_applied :
  let l :=
    [op_dtbo_store Sim.fdt 4; op_status_store [x31] 1;
     op_status_store [x30] 1; op_dtbo_store [x00] 1] in
  let s := after (run_ops l) (Sim.on Sim.fresh) in
  let s' := after (dtbocfg_overlay_item_status_store [x31] 1) s in
  dtbo (obj s) = Some [x00] /\ node (obj s) = Some 1 /\
  trace s' =
  trace s ++
  [ev_unflatten (Some [x00]) (Some 1); ev_set_flag 1;
   ev_resolve_phandles 1 0; ev_overlay_create 1 1] /\
  id (obj s') = 1 /\ dtbo (obj s') = Some [x00].
Proof. cbn. repeat split. Qed.

Lemma life_balances_memory_witness :
  allocations
    (trace (after (life "fpga0" Sim.reapply) (mk_state Sim.boot [] tt))) =
  frees (trace (after (life "fpga0" Sim.reapply) (mk_state Sim.boot [] tt))).
Proof.
  destruct (life_balances_memory "fpga0" Sim.boot Sim.reapply) as (_ & Hlife).
  - cbn. lia.
  - unfold Sim.reapply, INT_MAX. repeat constructor; cbn; lia.
  - exact Hlife.
Defined.
